(** * TimerObjectReactor (src/asm/timerobjectreactor.hpp)

    A shallow embedding of [Asm::TimerObjectReactor] and of the part of
    the Linux kernel it talks to (one epoll instance, its interest
    list, the results of the system calls), with the properties of the
    registration protocol, of the service loop and of construction and
    destruction. *)

From Stdlib Require Import ZArith Lia.
From stdpp Require Import base gmap sets list strings.

Local Open Scope Z_scope.

#[local] Set Warnings "-clear-no-such-hyp".

(** ** Platform

    Every method body of the class is wrapped in [#ifdef __linux__]:
    the platform is a parameter of each operation. *)

Inductive Platform : Type := Linux | Other.

(** ** Data model *)

(** [DataObject<TimerObject>]: the reactor only ever reads the file
    descriptor [t._fd] of the timer (through [dot.get]) and keeps a
    reference to the object.  [do_id] stands for the identity (address)
    of the referenced object. *)
Record DataObject : Type := mkDataObject { do_id : nat; _fd : Z }.

Global Instance DataObject_eq_dec : EqDecision DataObject.
Proof. solve_decision. Defined.

(** Log levels of [Logger::pLOG] used by the class. *)
Inductive Level : Type := trace | info | warn | error.

(** What an operation does, in program order: map accesses with the
    mutex operations around them, system calls with their results,
    calls into the DataObjectReactor, log lines. *)
Inductive Action : Type :=
| ALock                                  (* _mtx acquired *)
| AUnlock                                (* _mtx released *)
| AInsert (fd : Z) (dot : DataObject)    (* _notify.insert({fd, dot}) *)
| AErase (fd : Z)                        (* _notify.erase(fd) *)
| AFind (fd : Z)                         (* _notify.find(fd) *)
| AEntry (fd : Z)                        (* itr->second.get() *)
| AEpollCtlAdd (epfd fd ret : Z)         (* epoll_ctl(epfd, EPOLL_CTL_ADD, fd, &evt) *)
| AEpollCtlDel (epfd fd ret : Z)         (* epoll_ctl(epfd, EPOLL_CTL_DEL, fd, 0) *)
| AEventfd (ret : Z)                     (* eventfd(0, EFD_CLOEXEC) *)
| AEpollCreate (ret : Z)                 (* epoll_create1(EPOLL_CLOEXEC) *)
| AEpollWait (ret : Z)                   (* epoll_wait(_epfd, evt, MAX_CAPACITY, -1) *)
| ARead (fd ret : Z)                     (* read(fd, &elapsed, sizeof(elapsed)) *)
| AWrite (fd ret : Z)                    (* write(fd, &stop, sizeof(stop)) *)
| AClose (fd : Z)                        (* close(fd) *)
| ASpawn                                 (* _thrd = std::thread(run) *)
| ASetName (ret : Z)                     (* pthread_setname_np *)
| ASetSched (prio ret : Z)               (* pthread_setschedparam(SCHED_FIFO) *)
| AJoin                                  (* _thrd.join() *)
| ATrigger (dot : DataObject)            (* _dor.trigger(dot) *)
| ALog (lvl : Level) (msg : string).

Global Instance Level_eq_dec : EqDecision Level.
Proof. solve_decision. Defined.

Global Instance Action_eq_dec : EqDecision Action.
Proof. solve_decision. Defined.

(** The members of the class.  [_thrd] is a [std::thread]: all the
    class observes of it is whether it is joinable. *)
Record TimerObjectReactor : Type := mkTOR {
  _epfd : Z;
  _evtfd : Z;
  _thrd : bool;
  _notify : gmap Z DataObject
}.

(** The kernel, as far as the class can observe it: the epoll instances
    that are open, each with its interest list. *)
Record State : Type := mkState {
  tor : TimerObjectReactor;
  kernel : gmap Z (gset Z);
  actions : list Action
}.

(** ** Constants *)

Definition RT_PRIO : Z := 31.
Definition MAX_CAPACITY : nat := 256.
Definition EPOLLIN : Z := 1.
(** [sizeof(uint64_t)], the width of [elapsed] and [stop]. *)
Definition sizeof_uint64 : Z := 8.

(** ** A state monad for the method bodies *)

Definition M (A : Type) : Type := State -> A * State.

Definition ret {A} (a : A) : M A := fun s => (a, s).
Definition bind {A B} (m : M A) (k : A -> M B) : M B :=
  fun s => let '(a, s') := m s in k a s'.

Declare Scope tor_scope.
Delimit Scope tor_scope with tor.
Notation "x <- m ;; k" := (bind m (fun x => k))
  (at level 100, m at next level, k at level 200, right associativity)
  : tor_scope.
Notation "m ;; k" := (bind m (fun _ => k))
  (at level 100, k at level 200, right associativity) : tor_scope.
Local Open Scope tor_scope.

Definition act (a : Action) : M unit :=
  fun s => (tt, mkState (tor s) (kernel s) (actions s ++ [a])).

Definition get_tor : M TimerObjectReactor := fun s => (tor s, s).

Definition set_tor (t : TimerObjectReactor) : M unit :=
  fun s => (tt, mkState t (kernel s) (actions s)).

Definition get_kernel : M (gmap Z (gset Z)) := fun s => (kernel s, s).

Definition set_kernel (k : gmap Z (gset Z)) : M unit :=
  fun s => (tt, mkState (tor s) k (actions s)).

Definition log (lvl : Level) (msg : string) : M unit := act (ALog lvl msg).

(** [std::lock_guard<std::mutex> lock(_mtx); body] in a block of its own. *)
Definition lock_guard {A} (body : M A) : M A :=
  act ALock ;; a <- body ;; act AUnlock ;; ret a.

(** ** The registration map

    [std::unordered_map::insert] keeps the element already stored under
    an equal key; [erase(key)] and [find(key)] are the usual ones. *)

Definition map_insert (fd : Z) (dot : DataObject) (m : gmap Z DataObject)
  : gmap Z DataObject :=
  match m !! fd with
  | Some _ => m
  | None => <[fd := dot]> m
  end.

Definition notify_insert (fd : Z) (dot : DataObject) : M unit :=
  t <- get_tor ;;
  set_tor (mkTOR (_epfd t) (_evtfd t) (_thrd t) (map_insert fd dot (_notify t))) ;;
  act (AInsert fd dot).

Definition notify_erase (fd : Z) : M unit :=
  t <- get_tor ;;
  set_tor (mkTOR (_epfd t) (_evtfd t) (_thrd t) (delete fd (_notify t))) ;;
  act (AErase fd).

Definition notify_find (fd : Z) : M (option DataObject) :=
  t <- get_tor ;;
  act (AFind fd) ;;
  ret (_notify t !! fd).

(** ** The kernel side of epoll_ctl(2)

    The call fails when [epfd] is not an open epoll instance (EBADF,
    EINVAL), when ADD names a descriptor already in the interest list
    (EEXIST), when DEL names one that is not in it (ENOENT), and for
    reasons outside the class's view (ENOMEM, ENOSPC, EPERM, a bad
    [fd]): [fault] stands for those.  A failing call leaves the
    interest list as it was. *)

Definition epoll_add (fault : bool) (epfd fd : Z) (k : gmap Z (gset Z))
  : Z * gmap Z (gset Z) :=
  match k !! epfd with
  | None => (-1, k)
  | Some s =>
      if fault then (-1, k)
      else if decide (fd ∈ s) then (-1, k)
      else (0, <[epfd := ({[fd]} ∪ s)]> k)
  end.

Definition epoll_del (fault : bool) (epfd fd : Z) (k : gmap Z (gset Z))
  : Z * gmap Z (gset Z) :=
  match k !! epfd with
  | None => (-1, k)
  | Some s =>
      if fault then (-1, k)
      else if decide (fd ∈ s) then (0, <[epfd := (s ∖ {[fd]})]> k)
      else (-1, k)
  end.

Definition epoll_ctl_ADD (fault : bool) (fd : Z) : M Z :=
  t <- get_tor ;;
  k <- get_kernel ;;
  let '(r, k') := epoll_add fault (_epfd t) fd k in
  set_kernel k' ;;
  act (AEpollCtlAdd (_epfd t) fd r) ;;
  ret r.

Definition epoll_ctl_DEL (fault : bool) (fd : Z) : M Z :=
  t <- get_tor ;;
  k <- get_kernel ;;
  let '(r, k') := epoll_del fault (_epfd t) fd k in
  set_kernel k' ;;
  act (AEpollCtlDel (_epfd t) fd r) ;;
  ret r.

(** [close(fd)]: an epoll instance goes away with its descriptor, and
    a closed descriptor leaves every interest list. *)
Definition close (fd : Z) : M unit :=
  k <- get_kernel ;;
  set_kernel ((λ i : gset Z, i ∖ {[fd]}) <$> delete fd k) ;;
  act (AClose fd).

(** ** registerTimer and unregisterTimer *)

Definition registerTimer (p : Platform) (fault : bool) (dot : DataObject)
  : M bool :=
  let fd := _fd dot in
  match p with
  | Linux =>
      lock_guard (notify_insert fd dot) ;;
      r <- epoll_ctl_ADD fault fd ;;
      if r <? 0 then
        (* Delete it again in the case of error *)
        lock_guard (notify_erase fd) ;;
        log error "Epoll control error at TimerObjectReactor.registerTimer: {}" ;;
        ret false
      else ret true
  | Other => ret true
  end.

Definition unregisterTimer (p : Platform) (fault : bool) (dot : DataObject)
  : M bool :=
  let fd := _fd dot in
  match p with
  | Linux =>
      r <- epoll_ctl_DEL fault fd ;;
      ret_ <- (if r <? 0 then
                 log error "Epoll control error at TimerObjectReactor.unregisterTimer: {}" ;;
                 ret false
               else ret true) ;;
      (* Erase it in any case *)
      lock_guard (notify_erase fd) ;;
      ret ret_
  | Other => ret true
  end.

(** ** Construction and destruction *)

(** What the system calls of the constructor return.  [eventfd] and
    [epoll_create1] return a new descriptor or -1; [ctl_fault] is the
    [fault] of the kernel's epoll_ctl; the two pthread calls return 0
    or an error number. *)
Record CtorEnv : Type := mkCtorEnv {
  r_eventfd : Z;
  r_epoll_create1 : Z;
  ctl_fault : bool;
  r_setname : Z;
  r_setsched : Z
}.

Definition eventfd (r : Z) : M Z :=
  act (AEventfd r) ;; ret r.

(** A successful [epoll_create1] opens an instance with an empty
    interest list. *)
Definition epoll_create1 (r : Z) : M Z :=
  k <- get_kernel ;;
  set_kernel (if r <? 0 then k else <[r := ∅]> k) ;;
  act (AEpollCreate r) ;;
  ret r.

Definition set_evtfd (fd : Z) : M unit :=
  t <- get_tor ;; set_tor (mkTOR (_epfd t) fd (_thrd t) (_notify t)).

Definition set_epfd (fd : Z) : M unit :=
  t <- get_tor ;; set_tor (mkTOR fd (_evtfd t) (_thrd t) (_notify t)).

Definition set_thrd (b : bool) : M unit :=
  t <- get_tor ;; set_tor (mkTOR (_epfd t) (_evtfd t) b (_notify t)).

(** The constructor [TimerObjectReactor(DataObjectReactor& dor)].  The
    member initialisers set both descriptors to -1; [_thrd] and
    [_notify] are default-constructed. *)
Definition TimerObjectReactor_ctor (p : Platform) (env : CtorEnv) : M unit :=
  set_tor (mkTOR (-1) (-1) false ∅) ;;
  match p with
  | Linux =>
      evtfd <- eventfd (r_eventfd env) ;;
      set_evtfd evtfd ;;
      if evtfd <? 0 then
        log error "Eventfd file handle could not be created in TOR: {}"
      else
        epfd <- epoll_create1 (r_epoll_create1 env) ;;
        set_epfd epfd ;;
        if epfd <? 0 then
          log error "Epoll file handle could not be created in TOR: {}" ;;
          close evtfd
        else
          (* Add it first to stop epoll_wait in case of destruction *)
          r <- epoll_ctl_ADD (ctl_fault env) evtfd ;;
          if r <? 0 then
            log error "Epoll control error at ADD stop event in TOR: {}" ;;
            close epfd ;;
            close evtfd
          else
            set_thrd true ;;
            act ASpawn ;;
            log info "Created {}" ;;
            act (ASetName (r_setname env)) ;;
            (if negb (r_setname env =? 0)
             then log warn "Could not set name for {}" else ret tt) ;;
            act (ASetSched RT_PRIO (r_setsched env)) ;;
            (if negb (r_setsched env =? 0)
             then log warn "Could not set realtime parameter for {}" else ret tt)
  | Other => ret tt
  end.

(** The state before construction: no epoll instance, nothing done. *)
Definition boot : State := mkState (mkTOR (-1) (-1) false ∅) ∅ [].

Definition construct (p : Platform) (env : CtorEnv) : State :=
  snd (TimerObjectReactor_ctor p env boot).

(** ** The service loop *)

Record epoll_event : Type := mk_epoll_event { events : Z; data_fd : Z }.

(** One entry of the array filled by [epoll_wait], with what the
    [read] on its descriptor will return and store in [elapsed]. *)
Record Ready : Type := mkReady {
  evt : epoll_event;
  read_ret : Z;
  elapsed : Z
}.

(** What one call of [epoll_wait] returns: -1, or the events written
    to the array, never more than [MAX_CAPACITY]. *)
Inductive WaitResult : Type :=
| WaitError
| WaitEvents (l : list Ready).

Definition epoll_wait (w : WaitResult) : M (Z * list Ready) :=
  match w with
  | WaitError => act (AEpollWait (-1)) ;; ret (-1, [])
  | WaitEvents l =>
      let l' := take MAX_CAPACITY l in
      act (AEpollWait (Z.of_nat (length l'))) ;;
      ret (Z.of_nat (length l'), l')
  end.

(** The body of [for (int i = 0; i < evt_cnt; i++)] for [evt[i]];
    the result is [true] when the body executes [return]. *)
Definition on_event (e : Ready) : M bool :=
  let fd := data_fd (evt e) in
  if Z.land (events (evt e)) EPOLLIN =? 0 then ret false
  else
    act (ARead fd (read_ret e)) ;;
    if negb (read_ret e =? sizeof_uint64) then
      log error "Read TOR event returns wrong size: {}" ;;
      ret false
    else
      t <- get_tor ;;
      if (fd =? _evtfd t) && (0 <? elapsed e) then
        log info "Read TOR event returns stop command" ;;
        ret true
      else
        log trace "TOR with TID {} has fired" ;;
        act ALock ;;
        itr <- notify_find fd ;;
        match itr with
        | Some dot =>
            act AUnlock ;;
            act (AEntry fd) ;;
            act (ATrigger dot) ;;
            ret false
        | None =>
            act AUnlock ;;
            ret false
        end.

Fixpoint for_events (l : list Ready) : M bool :=
  match l with
  | [] => ret false
  | e :: l' =>
      stop <- on_event e ;;
      if stop then ret true else for_events l'
  end.

(** How far [run] gets on a finite history of [epoll_wait] results:
    it returns, or it is blocked in the next [epoll_wait]. *)
Inductive Exit : Type := Stopped | Waiting.

Fixpoint run_loop (script : list WaitResult) : M Exit :=
  match script with
  | [] => ret Waiting
  | w :: rest =>
      r <- epoll_wait w ;;
      if fst r <=? 0 then
        log error "Epoll wait error: {}" ;;
        run_loop rest
      else
        stop <- for_events (snd r) ;;
        if stop then ret Stopped else run_loop rest
  end.

Definition run (p : Platform) (script : list WaitResult) : M Exit :=
  match p with
  | Linux => log info "TOR-THRD-0 has TID-{}" ;; run_loop script
  | Other => ret Stopped
  end.

(** ** Sequences of calls *)

Inductive Call : Type :=
| Register (fault : bool) (dot : DataObject)
| Unregister (fault : bool) (dot : DataObject).

Definition call_dot (c : Call) : DataObject :=
  match c with Register _ d | Unregister _ d => d end.

Definition exec_call (p : Platform) (c : Call) : M bool :=
  match c with
  | Register f d => registerTimer p f d
  | Unregister f d => unregisterTimer p f d
  end.

Fixpoint exec_calls (p : Platform) (cs : list Call) : M (list bool) :=
  match cs with
  | [] => ret []
  | c :: cs' =>
      r <- exec_call p c ;;
      rs <- exec_calls p cs' ;;
      ret (r :: rs)
  end.

(** The state after the calls [cs], made one after the other. *)
Definition after (cs : list Call) (s : State) : State :=
  snd (exec_calls Linux cs s).

(** The interest list of the reactor's epoll instance. *)
Definition armed (s : State) : gset Z :=
  default ∅ (kernel s !! _epfd (tor s)).

(** The armed handles other than the reactor's own stop handle. *)
Definition armed_timers (s : State) : gset Z :=
  armed s ∖ {[ _evtfd (tor s) ]}.

Definition keys (s : State) : gset Z := dom (_notify (tor s)).

(** ** Destruction *)

(** How a call ends.  [std::thread::join] throws [std::system_error]
    when the thread is not joinable; a destructor is [noexcept], so an
    exception leaving it ends the process in [std::terminate].  A call
    that waits for something that never happens is [Blocked]. *)
Inductive Completion : Type := Returned | Terminated | Blocked.

Inductive JoinResult : Type := Joined | JoinThrows | JoinBlocks.

(** What [epoll_wait] hands to the service thread once the destructor
    has written to the stop handle: the stop handle, readable, with the
    count 1 that the write left in it, when the write succeeded and the
    handle is in the interest list; nothing more otherwise. *)
Definition stop_wakeup (wr : Z) : M (list WaitResult) :=
  fun s =>
    (if (wr =? sizeof_uint64) && bool_decide (_evtfd (tor s) ∈ armed s)
     then [WaitEvents [mkReady (mk_epoll_event EPOLLIN (_evtfd (tor s)))
                               sizeof_uint64 1]]
     else [],
     s).

(** [_thrd.join()]: on a thread that is not joinable the call throws;
    otherwise it waits until [run] has returned on the service thread,
    which goes on with its loop on [wakeup]. *)
Definition thrd_join (wakeup : list WaitResult) : M JoinResult :=
  t <- get_tor ;;
  act AJoin ;;
  if _thrd t then
    e <- run_loop wakeup ;;
    match e with
    | Stopped => set_thrd false ;; ret Joined
    | Waiting => ret JoinBlocks
    end
  else ret JoinThrows.

(** The destructor; [wr] is what [write] on [_evtfd] returns. *)
Definition TimerObjectReactor_dtor (p : Platform) (wr : Z) : M Completion :=
  log info "Delete TOR" ;;
  match p with
  | Linux =>
      t <- get_tor ;;
      act (AWrite (_evtfd t) wr) ;;
      (if negb (wr =? sizeof_uint64)
       then log error "Timer stop failed: {}" else ret tt) ;;
      wakeup <- stop_wakeup wr ;;
      joined <- thrd_join wakeup ;;
      match joined with
      | Joined =>
          (if 0 <=? _evtfd t then close (_evtfd t) else ret tt) ;;
          (if 0 <=? _epfd t then close (_epfd t) else ret tt) ;;
          ret Returned
      | JoinThrows => ret Terminated
      | JoinBlocks => ret Blocked
      end
  | Other => ret Returned
  end.

(** Containers that differ carry different handles. *)
Definition distinct_handles (cs : list Call) : Prop :=
  ∀ c1 c2, c1 ∈ cs → c2 ∈ cs →
    call_dot c1 ≠ call_dot c2 → _fd (call_dot c1) ≠ _fd (call_dot c2).

(** A call is regular in a state when it is a register of a handle
    that is not armed and is not the stop handle, or an unregister
    whose disarming, if the handle is armed, does not fail. *)
Definition regular_call (c : Call) (s : State) : Prop :=
  match c with
  | Register _ d => _fd d ≠ _evtfd (tor s) ∧ _fd d ∉ armed s
  | Unregister f d => _fd d ∈ armed s → f = false
  end.

Fixpoint regular (cs : list Call) (s : State) : Prop :=
  match cs with
  | [] => True
  | c :: cs' => regular_call c s ∧ regular cs' (snd (exec_call Linux c s))
  end.

(** The hub triggers and the error lines among some actions. *)
Definition triggers (l : list Action) : list DataObject :=
  omap (λ a, match a with ATrigger d => Some d | _ => None end) l.

Definition errors (l : list Action) : list string :=
  omap (λ a, match a with ALog error m => Some m | _ => None end) l.

(** ** Priorities

    [Observer::RT_PRIO] of main.cpp is the SCHED_FIFO priority given to
    every TBB worker thread, the threads the DataObjectReactor
    dispatches on.  Threads under the default policy (SCHED_OTHER) have
    static priority 0. *)
Module Observer.
Definition RT_PRIO : Z := 30.
End Observer.

Definition DEFAULT_PRIO : Z := 0.

(** ** Sample data *)

Definition env_ok : CtorEnv := mkCtorEnv 3 4 false 0 0.
Definition env_no_eventfd : CtorEnv := mkCtorEnv (-1) 4 false 0 0.
Definition env_no_epoll : CtorEnv := mkCtorEnv 3 (-1) false 0 0.
Definition env_no_stop : CtorEnv := mkCtorEnv 3 4 true 0 0.
Definition env_no_prio : CtorEnv := mkCtorEnv 3 4 false 0 1.

Definition timerA : DataObject := mkDataObject 0 5.
Definition timerB : DataObject := mkDataObject 1 6.

Definition fired (fd : Z) : Ready := mkReady (mk_epoll_event EPOLLIN fd) 8 1.
Definition short_read (fd : Z) : Ready := mkReady (mk_epoll_event EPOLLIN fd) (-1) 0.

(** The state [s] after the actions [l], members and kernel unchanged. *)
Definition did (l : list Action) (s : State) : State :=
  mkState (tor s) (kernel s) (actions s ++ l).

(** No epoll instance is open under the number held in [_epfd]. *)
Definition inert (s : State) : Prop :=
  kernel s !! _epfd (tor s) = None.

(** One of the three fallible steps of the constructor fails. *)
Definition ctor_fails (env : CtorEnv) : Prop :=
  r_eventfd env < 0 ∨ r_epoll_create1 env < 0 ∨ ctl_fault env = true.

(** ** The service loop as a function of the members

    [run] reads the members and the kernel's answers and changes
    neither: what it does is a list of actions computed from [tor]. *)

(** [evt_cnt] and the filled part of [evt] after one [epoll_wait]. *)
Definition evt_cnt (w : WaitResult) : Z :=
  match w with
  | WaitError => -1
  | WaitEvents l => Z.of_nat (length (take MAX_CAPACITY l))
  end.

Definition batch (w : WaitResult) : list Ready :=
  match w with
  | WaitError => []
  | WaitEvents l => take MAX_CAPACITY l
  end.

(** The event makes the loop body execute [return]. *)
Definition is_stop (t : TimerObjectReactor) (e : Ready) : bool :=
  negb (Z.land (events (evt e)) EPOLLIN =? 0) &&
  ((read_ret e =? sizeof_uint64) &&
   ((data_fd (evt e) =? _evtfd t) && (0 <? elapsed e))).

Definition on_event_trace (t : TimerObjectReactor) (e : Ready) : list Action :=
  let fd := data_fd (evt e) in
  if Z.land (events (evt e)) EPOLLIN =? 0 then []
  else
    ARead fd (read_ret e) ::
    if negb (read_ret e =? sizeof_uint64) then
      [ALog error "Read TOR event returns wrong size: {}"]
    else if (fd =? _evtfd t) && (0 <? elapsed e) then
      [ALog info "Read TOR event returns stop command"]
    else
      ALog trace "TOR with TID {} has fired" :: ALock :: AFind fd :: AUnlock ::
      match _notify t !! fd with
      | Some dot => [AEntry fd; ATrigger dot]
      | None => []
      end.

Fixpoint for_events_trace (t : TimerObjectReactor) (l : list Ready) : list Action :=
  match l with
  | [] => []
  | e :: l' =>
      on_event_trace t e ++ (if is_stop t e then [] else for_events_trace t l')
  end.

Fixpoint run_loop_trace (t : TimerObjectReactor) (script : list WaitResult)
  : list Action :=
  match script with
  | [] => []
  | w :: rest =>
      AEpollWait (evt_cnt w) ::
      if evt_cnt w <=? 0 then
        ALog error "Epoll wait error: {}" :: run_loop_trace t rest
      else
        for_events_trace t (batch w) ++
        (if existsb (is_stop t) (batch w) then [] else run_loop_trace t rest)
  end.

(** ** Lock discipline of a list of actions

    [lock_check held l] follows [_mtx] through [l]: the mutex is not
    recursive, the map is touched only while it is held, and system
    calls and calls into the DataObjectReactor are made only while it
    is not.  The result is whether the mutex is held at the end, or
    [None] when [l] breaks one of these rules. *)
Definition lock_step (held : bool) (a : Action) : option bool :=
  match a with
  | ALock => if held then None else Some true
  | AUnlock => if held then Some false else None
  | AInsert _ _ | AErase _ | AFind _ | AEntry _ =>
      if held then Some true else None
  | ALog _ _ => Some held
  | _ => if held then None else Some false
  end.

Fixpoint lock_check (held : bool) (l : list Action) : option bool :=
  match l with
  | [] => Some held
  | a :: l' =>
      match lock_step held a with
      | Some h => lock_check h l'
      | None => None
      end
  end.

(** With the reads of map entries in, the discipline holds as long as
    nothing is triggered, and is broken by the first trigger. *)
Definition strict_iff_silent (l : list Action) : Prop :=
  lock_check false l = match triggers l with [] => Some false | _ => None end.

(** The read of a map entry through an iterator. *)
Definition is_entry (a : Action) : bool :=
  match a with AEntry _ => true | _ => false end.

(** The actions the service thread may take: it waits, reads, looks
    up, triggers and logs. *)
Definition service_action (a : Action) : bool :=
  match a with
  | AEpollWait _ | ARead _ _ | ALock | AUnlock | AFind _ | AEntry _
  | ATrigger _
  | ALog _ _ => true
  | _ => false
  end.

(** Descriptors opened and closed by a list of actions. *)
Definition opened (l : list Action) : list Z :=
  omap (λ a, match a with
             | AEventfd r | AEpollCreate r => if r <? 0 then None else Some r
             | _ => None
             end) l.

Definition closed (l : list Action) : list Z :=
  omap (λ a, match a with AClose fd => Some fd | _ => None end) l.

(** ** The scheduler observer of main.cpp

    [Observer::on_scheduler_entry] names the TBB worker thread it runs
    on and gives it the real-time priority [_rt_prio]. *)

(** [std::to_string(int)]: the decimal digits, most significant first,
    after a minus sign for a negative value.  An [int] has at most ten
    digits. *)
Fixpoint digits_aux (fuel : nat) (n : Z) (acc : string) : string :=
  match fuel with
  | O => acc
  | S f =>
      let acc' := String (Ascii.ascii_of_N (48 + Z.to_N (n mod 10))) acc in
      if n / 10 =? 0 then acc' else digits_aux f (n / 10) acc'
  end.

Definition to_string (n : Z) : string :=
  if n <? 0 then String.append "-" (digits_aux 10 (- n) "")
  else digits_aux 10 n "".

(** [pthread_setname_np]: the name, with its terminating null byte,
    must fit in 16 bytes; otherwise the call returns ERANGE. *)
Definition ERANGE : Z := 34.

Definition pthread_setname_np (name : string) : Z :=
  if (15 <? String.length name)%nat then ERANGE else 0.

(** What the observer does, in program order. *)
Inductive Output : Type :=
| Cout (line : string)
| SetName (name : string) (ret : Z)
| SetSched (prio ret : Z).

Definition thread_name (tid : Z) : string :=
  String.append "TBB-TID-" (to_string tid).

(** [on_scheduler_entry] on the thread [tid] of an observer whose
    priority is [_rt_prio]; [r_sched] is what [pthread_setschedparam]
    returns. *)
Definition on_scheduler_entry (_rt_prio tid r_sched : Z) : list Output :=
  let s := thread_name tid in
  let r := pthread_setname_np s in
  [Cout s; SetName s r] ++
  (if negb (r =? 0) then [Cout "Could not set tbb names"] else []) ++
  [SetSched _rt_prio r_sched] ++
  (if negb (r_sched =? 0) then [Cout "Could not set realtime parameter"] else []).

(** * Properties *)

(** ** Equations of the two registration methods *)

Ltac unfold_m :=
  unfold lock_guard, notify_insert, notify_erase, notify_find,
    epoll_ctl_ADD, epoll_ctl_DEL, close, eventfd, epoll_create1,
    set_evtfd, set_epfd, set_thrd, thrd_join, stop_wakeup, log, act,
    get_tor, set_tor, get_kernel, set_kernel, bind, ret.

Lemma epoll_add_cases fault epfd fd k :
  (epoll_add fault epfd fd k = (-1, k) ∧
     (k !! epfd = None ∨ fault = true ∨ fd ∈ default ∅ (k !! epfd))) ∨
  (∃ i, k !! epfd = Some i ∧ fault = false ∧ (fd ∉ i) ∧
     epoll_add fault epfd fd k = (0, <[epfd := ({[fd]} ∪ i)]> k)).
Proof.
  unfold epoll_add. destruct (k !! epfd) as [i|] eqn:E; simpl.
  - destruct fault; [left; auto|].
    destruct (decide (fd ∈ i)); [left; auto|].
    right. exists i. auto.
  - left; auto.
Qed.

Lemma epoll_del_cases fault epfd fd k :
  (epoll_del fault epfd fd k = (-1, k) ∧
     (k !! epfd = None ∨ fault = true ∨ fd ∉ default ∅ (k !! epfd))) ∨
  (∃ i, k !! epfd = Some i ∧ fault = false ∧ fd ∈ i ∧
     epoll_del fault epfd fd k = (0, <[epfd := (i ∖ {[fd]})]> k)).
Proof.
  unfold epoll_del. destruct (k !! epfd) as [i|] eqn:E; simpl.
  - destruct fault; [left; auto|].
    destruct (decide (fd ∈ i)); [|left; auto].
    right. exists i. auto.
  - left; auto.
Qed.

Lemma registerTimer_eq fault dot s :
  registerTimer Linux fault dot s =
  let fd := _fd dot in
  let t := tor s in
  let arm := epoll_add fault (_epfd t) fd (kernel s) in
  let ins := map_insert fd dot (_notify t) in
  if fst arm <? 0 then
    (false,
     mkState (mkTOR (_epfd t) (_evtfd t) (_thrd t) (delete fd ins)) (snd arm)
       (actions s ++
        [ALock; AInsert fd dot; AUnlock; AEpollCtlAdd (_epfd t) fd (fst arm);
         ALock; AErase fd; AUnlock;
         ALog error "Epoll control error at TimerObjectReactor.registerTimer: {}"]))
  else
    (true,
     mkState (mkTOR (_epfd t) (_evtfd t) (_thrd t) ins) (snd arm)
       (actions s ++
        [ALock; AInsert fd dot; AUnlock; AEpollCtlAdd (_epfd t) fd (fst arm)])).
Proof.
  unfold registerTimer. unfold_m. simpl.
  destruct (epoll_add fault (_epfd (tor s)) (_fd dot) (kernel s)) as [r k'].
  simpl. destruct (r <? 0); simpl; rewrite <- ?app_assoc; reflexivity.
Qed.

Lemma unregisterTimer_eq fault dot s :
  unregisterTimer Linux fault dot s =
  let fd := _fd dot in
  let t := tor s in
  let disarm := epoll_del fault (_epfd t) fd (kernel s) in
  let t' := mkTOR (_epfd t) (_evtfd t) (_thrd t) (delete fd (_notify t)) in
  if fst disarm <? 0 then
    (false,
     mkState t' (snd disarm)
       (actions s ++
        [AEpollCtlDel (_epfd t) fd (fst disarm);
         ALog error "Epoll control error at TimerObjectReactor.unregisterTimer: {}";
         ALock; AErase fd; AUnlock]))
  else
    (true,
     mkState t' (snd disarm)
       (actions s ++
        [AEpollCtlDel (_epfd t) fd (fst disarm); ALock; AErase fd; AUnlock])).
Proof.
  unfold unregisterTimer. unfold_m. simpl.
  destruct (epoll_del fault (_epfd (tor s)) (_fd dot) (kernel s)) as [r k'].
  simpl. destruct (r <? 0); simpl; rewrite <- ?app_assoc; reflexivity.
Qed.

Lemma dom_map_insert fd dot (m : gmap Z DataObject) :
  dom (map_insert fd dot m) = {[fd]} ∪ dom m.
Proof.
  unfold map_insert. destruct (m !! fd) as [d|] eqn:E.
  - assert (fd ∈ dom m) by (apply elem_of_dom; eauto). set_solver.
  - apply dom_insert_L.
Qed.

Lemma map_insert_present fd dot (m : gmap Z DataObject) :
  fd ∈ dom m → map_insert fd dot m = m.
Proof.
  intros [d Hd]%elem_of_dom. unfold map_insert. by rewrite Hd.
Qed.

(** What a register call does to the key set and to the interest list. *)
Lemma registerTimer_effect fault dot s :
  let fd := _fd dot in
  let r := fst (registerTimer Linux fault dot s) in
  let s' := snd (registerTimer Linux fault dot s) in
  _epfd (tor s') = _epfd (tor s) ∧ _evtfd (tor s') = _evtfd (tor s) ∧
  _thrd (tor s') = _thrd (tor s) ∧
  ((r = false ∧ armed s' = armed s ∧ keys s' = keys s ∖ {[fd]} ∧
      (kernel s !! _epfd (tor s) = None ∨ fault = true ∨ fd ∈ armed s)) ∨
   (r = true ∧ armed s' = {[fd]} ∪ armed s ∧ keys s' = {[fd]} ∪ keys s ∧
      fault = false ∧ (fd ∉ armed s))).
Proof.
  cbv zeta. rewrite registerTimer_eq. cbv zeta.
  destruct (epoll_add_cases fault (_epfd (tor s)) (_fd dot) (kernel s))
    as [[E H]|(i & Hi & Hf & Hn & E)]; rewrite E; simpl;
    (split; [reflexivity|]); (split; [reflexivity|]); (split; [reflexivity|]).
  - left. unfold armed, keys; simpl.
    rewrite dom_delete_L, dom_map_insert.
    repeat split; [set_solver|exact H].
  - right. unfold armed, keys; simpl.
    rewrite lookup_insert_eq, Hi, dom_map_insert. simpl. auto.
Qed.

(** What an unregister call does to them. *)
Lemma unregisterTimer_effect fault dot s :
  let fd := _fd dot in
  let r := fst (unregisterTimer Linux fault dot s) in
  let s' := snd (unregisterTimer Linux fault dot s) in
  _epfd (tor s') = _epfd (tor s) ∧ _evtfd (tor s') = _evtfd (tor s) ∧
  _thrd (tor s') = _thrd (tor s) ∧
  keys s' = keys s ∖ {[fd]} ∧
  ((r = false ∧ armed s' = armed s ∧ (fault = true ∨ fd ∉ armed s)) ∨
   (r = true ∧ armed s' = armed s ∖ {[fd]} ∧ fault = false ∧ fd ∈ armed s)).
Proof.
  cbv zeta. rewrite unregisterTimer_eq. cbv zeta.
  destruct (epoll_del_cases fault (_epfd (tor s)) (_fd dot) (kernel s))
    as [[E H]|(i & Hi & Hf & Hn & E)]; rewrite E; simpl;
    (split; [reflexivity|]); (split; [reflexivity|]); (split; [reflexivity|]);
    (split; [unfold keys; simpl; apply dom_delete_L|]).
  - left. unfold armed; simpl. repeat split.
    destruct H as [H|[H|H]]; [right; rewrite H; set_solver|by left|by right].
  - right. unfold armed; simpl.
    rewrite lookup_insert_eq, Hi. simpl. auto.
Qed.

(** Every key of the map is armed: kept by each call, whatever its
    handle and whatever the kernel answers. *)
Lemma keys_armed_step c s :
  keys s ⊆ armed s →
  keys (snd (exec_call Linux c s)) ⊆ armed (snd (exec_call Linux c s)).
Proof.
  intros H. destruct c as [f d|f d]; unfold exec_call.
  - destruct (registerTimer_effect f d s) as (_ & _ & _ & [C|C]);
      destruct C as (_ & Ha & Hk & _); rewrite Ha, Hk; set_solver.
  - destruct (unregisterTimer_effect f d s) as (_ & _ & _ & Hk & [C|C]);
      destruct C as (_ & Ha & _); rewrite Ha, Hk; set_solver.
Qed.

(** The key set is the set of armed timer handles: kept by each
    regular call. *)
Lemma keys_eq_step c s :
  regular_call c s →
  keys s = armed_timers s →
  keys (snd (exec_call Linux c s)) = armed_timers (snd (exec_call Linux c s)).
Proof.
  unfold armed_timers. intros R H. destruct c as [f d|f d]; unfold exec_call;
    unfold regular_call in R.
  - destruct R as [R1 R2].
    destruct (registerTimer_effect f d s) as (_ & He & _ & [C|C]);
      destruct C as (_ & Ha & Hk & _); rewrite He, Ha, Hk; set_solver.
  - destruct (unregisterTimer_effect f d s) as (_ & He & _ & Hk & [C|C]);
      rewrite He, Hk.
    + destruct C as (_ & Ha & [C|C]); rewrite Ha; [|set_solver].
      destruct (decide (_fd d ∈ armed s)) as [Hin|Hn]; [|set_solver].
      specialize (R Hin). congruence.
    + destruct C as (_ & Ha & _). rewrite Ha. set_solver.
Qed.

Lemma after_cons c cs s : after (c :: cs) s = after cs (snd (exec_call Linux c s)).
Proof.
  unfold after. simpl. unfold bind, ret.
  destruct (exec_call Linux c s) as [r s1]. simpl.
  destruct (exec_calls Linux cs s1); reflexivity.
Qed.

Lemma keys_armed_after cs s : keys s ⊆ armed s → keys (after cs s) ⊆ armed (after cs s).
Proof.
  revert s. induction cs as [|c cs IH]; intros s H.
  - exact H.
  - rewrite after_cons. apply IH. by apply keys_armed_step.
Qed.

Lemma keys_eq_after cs s :
  regular cs s → keys s = armed_timers s →
  keys (after cs s) = armed_timers (after cs s).
Proof.
  revert s. induction cs as [|c cs IH]; intros s R H.
  - exact H.
  - destruct R as [R1 R2]. rewrite after_cons. apply IH; [exact R2|].
    by apply keys_eq_step.
Qed.

Lemma regular_take n cs s : regular cs s → regular (take n cs) s.
Proof.
  revert cs s. induction n as [|n IH]; intros [|c cs] s R; simpl; auto.
  destruct R as [R1 R2]. split; auto.
Qed.

(** ** The state after construction *)

Lemma construct_ok env :
  0 <= r_eventfd env → 0 <= r_epoll_create1 env → ctl_fault env = false →
  construct Linux env =
  mkState (mkTOR (r_epoll_create1 env) (r_eventfd env) true ∅)
    (<[r_epoll_create1 env := ({[r_eventfd env]} ∪ ∅)]>
       (<[r_epoll_create1 env := ∅]> ∅))
    ([AEventfd (r_eventfd env); AEpollCreate (r_epoll_create1 env);
      AEpollCtlAdd (r_epoll_create1 env) (r_eventfd env) 0; ASpawn;
      ALog info "Created {}"; ASetName (r_setname env)] ++
     (if r_setname env =? 0 then []
      else [ALog warn "Could not set name for {}"]) ++
     [ASetSched RT_PRIO (r_setsched env)] ++
     (if r_setsched env =? 0 then []
      else [ALog warn "Could not set realtime parameter for {}"])).
Proof.
  intros H1 H2 H3. unfold construct, TimerObjectReactor_ctor, boot.
  unfold_m. simpl.
  destruct (r_eventfd env <? 0) eqn:E1; [lia|].
  destruct (r_epoll_create1 env <? 0) eqn:E2; [lia|]. simpl.
  unfold epoll_add. rewrite lookup_insert_eq, H3.
  destruct (decide (r_eventfd env ∈ (∅ : gset Z))) as [Hin|_]; [set_solver|].
  simpl. destruct (r_setname env =? 0), (r_setsched env =? 0); reflexivity.
Qed.

Lemma construct_fails env :
  ctor_fails env →
  let s := construct Linux env in
  _thrd (tor s) = false ∧ _notify (tor s) = ∅ ∧ inert s.
Proof.
  intros H. unfold construct, TimerObjectReactor_ctor, boot, inert.
  unfold_m. simpl.
  destruct (r_eventfd env <? 0) eqn:E1; [simpl; auto|].
  destruct (r_epoll_create1 env <? 0) eqn:E2; simpl.
  { split; [reflexivity|]. split; [reflexivity|].
    rewrite lookup_fmap. apply fmap_None.
    apply lookup_delete_None. right. apply lookup_empty. }
  destruct H as [H|[H|H]]; [lia|lia|].
  unfold epoll_add. rewrite lookup_insert_eq, H. simpl.
  split; [reflexivity|]. split; [reflexivity|].
  rewrite lookup_fmap. apply fmap_None. apply lookup_delete_None. right.
  rewrite lookup_fmap. apply fmap_None. apply lookup_delete_None. by left.
Qed.

Lemma ctor_fails_dec env : ctor_fails env ∨
  (0 <= r_eventfd env ∧ 0 <= r_epoll_create1 env ∧ ctl_fault env = false).
Proof.
  unfold ctor_fails. destruct (ctl_fault env); [auto|].
  destruct (Z_lt_ge_dec (r_eventfd env) 0); [auto|].
  destruct (Z_lt_ge_dec (r_epoll_create1 env) 0); [auto|].
  right. repeat split; lia.
Qed.

(** After construction the map is empty and nothing but the stop
    handle is armed. *)
Lemma construct_keys env :
  let s := construct Linux env in
  keys s ⊆ armed s ∧ keys s = armed_timers s.
Proof.
  destruct (ctor_fails_dec env) as [H|(H1 & H2 & H3)].
  - destruct (construct_fails env H) as (_ & Hn & Hi). cbv zeta.
    unfold keys, armed_timers, armed. unfold inert in Hi.
    rewrite Hn, Hi. simpl. set_solver.
  - cbv zeta. rewrite (construct_ok env H1 H2 H3).
    unfold keys, armed_timers, armed. simpl.
    rewrite lookup_insert_eq. simpl. set_solver.
Qed.

(** ** The inert instance *)

Lemma inert_step c s :
  inert s →
  fst (exec_call Linux c s) = false ∧ inert (snd (exec_call Linux c s)) ∧
  _thrd (tor (snd (exec_call Linux c s))) = _thrd (tor s).
Proof.
  unfold inert. intros H. destruct c as [f d|f d]; unfold exec_call.
  - rewrite registerTimer_eq. cbv zeta. unfold epoll_add. rewrite H. simpl. auto.
  - rewrite unregisterTimer_eq. cbv zeta. unfold epoll_del. rewrite H. simpl. auto.
Qed.

Lemma inert_calls cs s :
  inert s →
  Forall (λ r, r = false) (fst (exec_calls Linux cs s)) ∧
  inert (after cs s) ∧ _thrd (tor (after cs s)) = _thrd (tor s).
Proof.
  revert s. induction cs as [|c cs IH]; intros s H.
  - unfold after; simpl. auto.
  - destruct (inert_step c s H) as (Hr & Hi & Ht).
    destruct (IH _ Hi) as (Hrs & Hi' & Ht').
    rewrite after_cons. rewrite Ht' , Ht. split; [|auto].
    simpl. unfold bind, ret.
    destruct (exec_call Linux c s) as [r s1]. simpl in *.
    destruct (exec_calls Linux cs s1) as [rs s2]. simpl in *.
    constructor; auto.
Qed.

(** ** Equation of the loop body *)

Lemma on_event_eq e s :
  on_event e s =
  let fd := data_fd (evt e) in
  if Z.land (events (evt e)) EPOLLIN =? 0 then (false, s)
  else if negb (read_ret e =? sizeof_uint64) then
    (false, did [ARead fd (read_ret e);
                 ALog error "Read TOR event returns wrong size: {}"] s)
  else if (fd =? _evtfd (tor s)) && (0 <? elapsed e) then
    (true, did [ARead fd (read_ret e);
                ALog info "Read TOR event returns stop command"] s)
  else
    match _notify (tor s) !! fd with
    | Some dot =>
        (false, did [ARead fd (read_ret e);
                     ALog trace "TOR with TID {} has fired";
                     ALock; AFind fd; AUnlock; AEntry fd; ATrigger dot] s)
    | None =>
        (false, did [ARead fd (read_ret e);
                     ALog trace "TOR with TID {} has fired";
                     ALock; AFind fd; AUnlock] s)
    end.
Proof.
  unfold on_event, did. cbv zeta.
  destruct (Z.land (events (evt e)) EPOLLIN =? 0); [reflexivity|].
  unfold_m. simpl.
  destruct (negb (read_ret e =? sizeof_uint64)); simpl;
    [rewrite <- ?app_assoc; reflexivity|].
  destruct ((data_fd (evt e) =? _evtfd (tor s)) && (0 <? elapsed e)); simpl;
    [rewrite <- ?app_assoc; reflexivity|].
  destruct (_notify (tor s) !! data_fd (evt e)); simpl;
    rewrite <- ?app_assoc; reflexivity.
Qed.

(** ** The registration protocol *)

(** C2: on Linux, [registerTimer] first inserts (handle, container)
    into the map under the lock and then attempts the kernel arming;
    when the arming fails it erases the entry under the lock, logs and
    returns [false], and the map is left without an entry for the
    handle; when the arming succeeds it returns [true] and the map
    holds an entry for the handle. *)
Theorem registerTimer_insert_arm_rollback (fault : bool) (dot : DataObject) (s : State) :
  let fd := _fd dot in
  let epfd := _epfd (tor s) in
  let arm := epoll_add fault epfd fd (kernel s) in
  let r := fst (registerTimer Linux fault dot s) in
  let s' := snd (registerTimer Linux fault dot s) in
  kernel s' = snd arm ∧
  if fst arm <? 0 then
    r = false ∧
    actions s' = actions s ++
      [ALock; AInsert fd dot; AUnlock; AEpollCtlAdd epfd fd (fst arm);
       ALock; AErase fd; AUnlock;
       ALog error "Epoll control error at TimerObjectReactor.registerTimer: {}"] ∧
    _notify (tor s') = delete fd (map_insert fd dot (_notify (tor s))) ∧
    fd ∉ keys s'
  else
    r = true ∧
    actions s' = actions s ++
      [ALock; AInsert fd dot; AUnlock; AEpollCtlAdd epfd fd (fst arm)] ∧
    _notify (tor s') = map_insert fd dot (_notify (tor s)) ∧
    fd ∈ keys s'.
Proof.
  cbv zeta. rewrite registerTimer_eq. cbv zeta.
  destruct (epoll_add fault (_epfd (tor s)) (_fd dot) (kernel s)) as [a k'].
  simpl. destruct (a <? 0); simpl; (split; [reflexivity|]);
    (split; [reflexivity|]); (split; [reflexivity|]); (split; [reflexivity|]);
    unfold keys; simpl.
  - rewrite dom_delete_L. set_solver.
  - rewrite dom_map_insert. set_solver.
Qed.

(** C3: on Linux, [unregisterTimer] attempts the kernel disarming and
    then erases the handle's entry under the lock whatever the outcome:
    after the call the handle is not a key of the map, and the result
    is [true] exactly when the disarming succeeded. *)
Theorem unregisterTimer_disarm_then_erase (fault : bool) (dot : DataObject) (s : State) :
  let fd := _fd dot in
  let epfd := _epfd (tor s) in
  let disarm := epoll_del fault epfd fd (kernel s) in
  let r := fst (unregisterTimer Linux fault dot s) in
  let s' := snd (unregisterTimer Linux fault dot s) in
  r = negb (fst disarm <? 0) ∧
  kernel s' = snd disarm ∧
  actions s' = actions s ++
    AEpollCtlDel epfd fd (fst disarm) ::
    (if fst disarm <? 0
     then [ALog error "Epoll control error at TimerObjectReactor.unregisterTimer: {}"]
     else []) ++
    [ALock; AErase fd; AUnlock] ∧
  _notify (tor s') = delete fd (_notify (tor s)) ∧
  fd ∉ keys s'.
Proof.
  cbv zeta. rewrite unregisterTimer_eq. cbv zeta.
  destruct (epoll_del fault (_epfd (tor s)) (_fd dot) (kernel s)) as [a k'].
  simpl. destruct (a <? 0); simpl; repeat (split; [reflexivity|]);
    unfold keys; simpl; rewrite dom_delete_L; set_solver.
Qed.

(** C1, as stated, fails: registering the same container twice leaves
    its handle armed and the map without it. *)
Lemma register_twice_keys_not_armed :
  let cs := [Register false timerA; Register false timerA] in
  let s := after cs (construct Linux env_ok) in
  distinct_handles cs ∧ keys s ≠ armed_timers s ∧ keys s ≠ armed s.
Proof.
  cbv zeta. split.
  - intros c1 c2 H1 H2 Hne.
    assert (c1 = Register false timerA) as -> by set_solver.
    assert (c2 = Register false timerA) as -> by set_solver.
    by destruct Hne.
  - assert (Hk : keys (after [Register false timerA; Register false timerA]
                         (construct Linux env_ok)) = ∅) by reflexivity.
    assert (Ha : 5 ∈ armed_timers (after [Register false timerA; Register false timerA]
                         (construct Linux env_ok))) by (vm_compute; reflexivity).
    assert (Hb : 5 ∈ armed (after [Register false timerA; Register false timerA]
                         (construct Linux env_ok))) by (vm_compute; reflexivity).
    rewrite Hk. split; intros E; rewrite <- E in *; set_solver.
Qed.

(** C1, amended: after each call of any sequence of register and
    unregister calls on a constructed reactor, every key of the map is
    armed at the multiplexer; and when every register call of the
    sequence is for a handle that is not armed at that moment (and is
    not the stop handle) and no disarming of an armed handle fails, the
    key set is exactly the set of armed handles other than the stop
    handle. *)
Theorem notify_keys_armed (env : CtorEnv) (cs : list Call) (n : nat) :
  let s0 := construct Linux env in
  let s := after (take n cs) s0 in
  keys s ⊆ armed s ∧ (regular cs s0 → keys s = armed_timers s).
Proof.
  cbv zeta. destruct (construct_keys env) as [H1 H2]. split.
  - by apply keys_armed_after.
  - intros R. apply keys_eq_after; [by apply regular_take|exact H2].
Qed.

Lemma notify_keys_armed_witness :
  let cs := [Register false timerA; Register true timerB;
             Unregister false timerA; Register false timerA] in
  let s := after (take 4 cs) (construct Linux env_ok) in
  regular cs (construct Linux env_ok) ∧ keys s ⊆ armed s ∧ keys s = armed_timers s.
Proof.
  cbv zeta.
  assert (R : regular [Register false timerA; Register true timerB;
                       Unregister false timerA; Register false timerA]
                (construct Linux env_ok)).
  { vm_compute. repeat split; try discriminate; try reflexivity. }
  split; [exact R|]. split.
  - apply (notify_keys_armed env_ok _ 4).
  - apply (notify_keys_armed env_ok _ 4). exact R.
Defined.

(** C10: when [registerTimer] is called, after any calls on a
    constructed reactor, for a container whose handle is already a key
    of the map, the insert changes nothing, the arming fails because
    the handle is already armed, and the rollback erases the entry that
    was there: the call returns [false], the handle is no longer a key
    and is still armed. *)
Theorem registerTimer_again_erases (env : CtorEnv) (cs : list Call)
    (fault : bool) (dot : DataObject) :
  let s := after cs (construct Linux env) in
  let fd := _fd dot in
  fd ∈ keys s →
  let r := fst (registerTimer Linux fault dot s) in
  let s' := snd (registerTimer Linux fault dot s) in
  map_insert fd dot (_notify (tor s)) = _notify (tor s) ∧
  fd ∈ armed s ∧
  epoll_add fault (_epfd (tor s)) fd (kernel s) = (-1, kernel s) ∧
  r = false ∧
  _notify (tor s') = delete fd (_notify (tor s)) ∧
  (fd ∉ keys s') ∧
  fd ∈ armed s'.
Proof.
  cbv zeta. intros Hk.
  set (s := after cs (construct Linux env)) in *.
  assert (Ha : _fd dot ∈ armed s).
  { destruct (construct_keys env) as [H _].
    apply (keys_armed_after cs) in H. fold s in H. set_solver. }
  assert (Hi : map_insert (_fd dot) dot (_notify (tor s)) = _notify (tor s))
    by (by apply map_insert_present).
  assert (He : epoll_add fault (_epfd (tor s)) (_fd dot) (kernel s) = (-1, kernel s)).
  { unfold armed in Ha. unfold epoll_add.
    destruct (kernel s !! _epfd (tor s)) as [i|]; [|reflexivity].
    simpl in Ha. destruct fault; [reflexivity|].
    destruct (decide (_fd dot ∈ i)); [reflexivity|contradiction]. }
  rewrite registerTimer_eq. cbv zeta. rewrite He, Hi. simpl.
  repeat (split; [done|]). split.
  - unfold keys; simpl. rewrite dom_delete_L. set_solver.
  - exact Ha.
Qed.

Lemma registerTimer_again_erases_witness :
  let s := after [Register false timerA] (construct Linux env_ok) in
  5 ∈ keys s ∧
  fst (registerTimer Linux false timerA s) = false ∧
  (5 ∉ keys (snd (registerTimer Linux false timerA s))) ∧
  5 ∈ armed (snd (registerTimer Linux false timerA s)).
Proof.
  cbv zeta.
  assert (Hk : _fd timerA ∈ keys (after [Register false timerA] (construct Linux env_ok)))
    by (vm_compute; reflexivity).
  split; [exact Hk|].
  pose proof (registerTimer_again_erases env_ok [Register false timerA]
                false timerA Hk) as H.
  cbv zeta in H. destruct H as (_ & _ & _ & Hr & _ & Hn & Ha).
  auto.
Defined.

(** ** Construction, destruction, platforms *)

(** C5: when a step of the constructor fails, the instance is inert
    (every later register and unregister call returns [false]), yet the
    destructor then calls [join] on a thread that was never started:
    the call throws and the process ends in [std::terminate]. *)
Theorem dtor_after_failed_ctor_terminates (env : CtorEnv) (cs : list Call) (wr : Z) :
  ctor_fails env →
  let s := after cs (construct Linux env) in
  Forall (λ r, r = false) (fst (exec_calls Linux cs (construct Linux env))) ∧
  fst (TimerObjectReactor_dtor Linux wr s) = Terminated.
Proof.
  intros H. cbv zeta.
  destruct (construct_fails env H) as (Ht & _ & Hi).
  destruct (inert_calls cs _ Hi) as (Hr & _ & Ht').
  split; [exact Hr|].
  rewrite Ht in Ht'.
  unfold TimerObjectReactor_dtor. unfold_m. simpl.
  destruct (negb (wr =? sizeof_uint64)); simpl; rewrite Ht'; reflexivity.
Qed.

Lemma dtor_after_failed_ctor_terminates_witness :
  ctor_fails env_no_eventfd ∧
  fst (TimerObjectReactor_dtor Linux (-1) (construct Linux env_no_eventfd))
  = Terminated.
Proof.
  assert (H : ctor_fails env_no_eventfd) by (left; vm_compute; reflexivity).
  split; [exact H|].
  apply (dtor_after_failed_ctor_terminates env_no_eventfd [] (-1) H).
Defined.

(** C6, as stated, fails: without the Linux primitives [registerTimer]
    and [unregisterTimer] return [true]. *)
Lemma other_platform_returns_true :
  fst (registerTimer Other false timerA (construct Other env_ok)) ≠ false ∧
  fst (unregisterTimer Other false timerA (construct Other env_ok)) ≠ false.
Proof. split; vm_compute; discriminate. Qed.

(** C6, amended: without the Linux primitives the constructor makes no
    system call and starts no thread, [registerTimer] and
    [unregisterTimer] change nothing and return [true], [run] returns at
    once, and the destructor writes its log line and returns. *)
Theorem other_platform_noop (env : CtorEnv) (fault : bool) (dot : DataObject)
    (wr : Z) (script : list WaitResult) (s : State) :
  construct Other env = boot ∧
  registerTimer Other fault dot s = (true, s) ∧
  unregisterTimer Other fault dot s = (true, s) ∧
  run Other script s = (Stopped, s) ∧
  TimerObjectReactor_dtor Other wr s = (Returned, did [ALog info "Delete TOR"] s).
Proof.
  repeat split; destruct s; reflexivity.
Qed.

(** C9, as stated, fails: the priority of the service thread is not
    below that of the dispatch threads. *)
Lemma RT_PRIO_not_below_hub : ¬ (RT_PRIO < Observer.RT_PRIO).
Proof. unfold RT_PRIO, Observer.RT_PRIO. lia. Qed.

(** C9, amended: the service thread is given the fixed SCHED_FIFO
    priority [RT_PRIO] = 31, one level above the priority of the
    dispatch threads (30) and above the default priority; when the call
    that applies it fails, a warning is logged and the construction
    completes with the thread running. *)
Theorem RT_PRIO_above_hub (env : CtorEnv) :
  0 <= r_eventfd env → 0 <= r_epoll_create1 env → ctl_fault env = false →
  let s := construct Linux env in
  RT_PRIO = Observer.RT_PRIO + 1 ∧ DEFAULT_PRIO < RT_PRIO ∧
  _thrd (tor s) = true ∧
  ASetSched RT_PRIO (r_setsched env) ∈ actions s ∧
  errors (actions s) = [] ∧
  if r_setsched env =? 0
  then last (actions s) = Some (ASetSched RT_PRIO 0)
  else last (actions s) = Some (ALog warn "Could not set realtime parameter for {}").
Proof.
  intros H1 H2 H3. cbv zeta. rewrite (construct_ok env H1 H2 H3). simpl.
  split; [reflexivity|]. split; [reflexivity|]. split; [reflexivity|].
  destruct (r_setname env =? 0); destruct (r_setsched env =? 0) eqn:E; simpl;
    (split; [set_solver|]); (split; [reflexivity|]); try reflexivity;
    apply Z.eqb_eq in E; rewrite E; reflexivity.
Qed.

Lemma RT_PRIO_above_hub_witness :
  _thrd (tor (construct Linux env_no_prio)) = true ∧
  last (actions (construct Linux env_no_prio))
  = Some (ALog warn "Could not set realtime parameter for {}").
Proof.
  assert (H1 : 0 <= r_eventfd env_no_prio) by (vm_compute; discriminate).
  assert (H2 : 0 <= r_epoll_create1 env_no_prio) by (vm_compute; discriminate).
  pose proof (RT_PRIO_above_hub env_no_prio H1 H2 eq_refl) as H.
  cbv zeta in H. destruct H as (_ & _ & Ht & _ & _ & Hl).
  split; [exact Ht|exact Hl].
Defined.

(** ** The service loop *)

Lemma triggers_app l1 l2 : triggers (l1 ++ l2) = triggers l1 ++ triggers l2.
Proof. apply omap_app. Qed.

Lemma errors_app l1 l2 : errors (l1 ++ l2) = errors l1 ++ errors l2.
Proof. apply omap_app. Qed.

Lemma for_events_cons e l s :
  for_events (e :: l) s =
  if fst (on_event e s) then (true, snd (on_event e s))
  else for_events l (snd (on_event e s)).
Proof.
  simpl. unfold bind, ret. destruct (on_event e s) as [[|] s1]; reflexivity.
Qed.

Lemma epoll_wait_events l s :
  epoll_wait (WaitEvents l) s =
  let l' := take MAX_CAPACITY l in
  ((Z.of_nat (length l'), l'), did [AEpollWait (Z.of_nat (length l'))] s).
Proof. reflexivity. Qed.

Lemma run_loop_events l script s :
  l ≠ [] →
  run_loop (WaitEvents l :: script) s =
  let l' := take MAX_CAPACITY l in
  let s1 := did [AEpollWait (Z.of_nat (length l'))] s in
  if fst (for_events l' s1) then (Stopped, snd (for_events l' s1))
  else run_loop script (snd (for_events l' s1)).
Proof.
  intros Hl. cbv zeta. cbn [run_loop]. unfold bind at 1.
  rewrite epoll_wait_events. cbv zeta. cbn [fst snd].
  assert (Hpos : (Z.of_nat (length (take MAX_CAPACITY l)) <=? 0) = false).
  { destruct l as [|e l]; [done|]. apply Z.leb_gt.
    change (take MAX_CAPACITY (e :: l)) with (e :: take 255 l).
    cbn [length]. lia. }
  rewrite Hpos. unfold bind, ret.
  destruct (for_events (take MAX_CAPACITY l) _) as [[|] s2]; reflexivity.
Qed.

Lemma on_event_fst_did e l s : fst (on_event e (did l s)) = fst (on_event e s).
Proof.
  rewrite !on_event_eq. cbv zeta.
  change (tor (did l s)) with (tor s).
  destruct (Z.land (events (evt e)) EPOLLIN =? 0); [reflexivity|].
  destruct (negb (read_ret e =? sizeof_uint64)); [reflexivity|].
  destruct ((data_fd (evt e) =? _evtfd (tor s)) && (0 <? elapsed e)); [reflexivity|].
  destruct (_notify (tor s) !! data_fd (evt e)); reflexivity.
Qed.

(** C4, as stated, fails: an event on a registered handle whose
    counter read comes back short is processed by the loop and makes no
    [trigger] call. *)
Lemma short_read_registered_no_trigger :
  let s := after [Register false timerA] (construct Linux env_ok) in
  _notify (tor s) !! 5 = Some timerA ∧
  triggers (actions (snd (run Linux [WaitEvents [short_read 5]] s)))
  = triggers (actions s).
Proof. cbv zeta. split; reflexivity. Qed.

(** C4, amended: for a ready handle that is readable, whose counter is
    read in full and that is not the stop command, the service loop
    makes exactly one [trigger] call, for the container stored under
    the handle, when the handle is a key of the map, and no [trigger]
    call and no error line when it is not; in both cases the loop goes
    on with the next event of the batch and, after the last one, with
    the next wait. *)
Theorem on_event_triggers_once_or_drops (e : Ready) (s : State) :
  Z.land (events (evt e)) EPOLLIN ≠ 0 →
  read_ret e = sizeof_uint64 →
  ¬ (data_fd (evt e) = _evtfd (tor s) ∧ 0 < elapsed e) →
  let fd := data_fd (evt e) in
  let new :=
    [ARead fd (read_ret e); ALog trace "TOR with TID {} has fired";
     ALock; AFind fd; AUnlock] ++
    match _notify (tor s) !! fd with
    | Some dot => [AEntry fd; ATrigger dot]
    | None => []
    end in
  on_event e s = (false, did new s) ∧
  triggers (actions (did new s)) =
    triggers (actions s) ++
    match _notify (tor s) !! fd with Some dot => [dot] | None => [] end ∧
  errors (actions (did new s)) = errors (actions s) ∧
  (∀ l, for_events (e :: l) s = for_events l (did new s)) ∧
  (∀ script, run_loop (WaitEvents [e] :: script) s =
             run_loop script (did new (did [AEpollWait 1] s))).
Proof.
  intros Hin Hrd Hstop. cbv zeta.
  assert (He : ∀ s0, tor s0 = tor s →
            on_event e s0 =
            (false,
             did ([ARead (data_fd (evt e)) (read_ret e);
                   ALog trace "TOR with TID {} has fired";
                   ALock; AFind (data_fd (evt e)); AUnlock] ++
                  match _notify (tor s) !! data_fd (evt e) with
                  | Some dot => [AEntry (data_fd (evt e)); ATrigger dot]
                  | None => []
                  end) s0)).
  { intros s0 Ht. rewrite on_event_eq. cbv zeta. rewrite Ht.
    destruct (Z.land (events (evt e)) EPOLLIN =? 0) eqn:E1; [lia|].
    rewrite Hrd, Z.eqb_refl. cbn [negb].
    destruct ((data_fd (evt e) =? _evtfd (tor s)) && (0 <? elapsed e)) eqn:E2.
    { apply andb_true_iff in E2 as [E2 E3]. destruct Hstop. lia. }
    destruct (_notify (tor s) !! data_fd (evt e)); reflexivity. }
  split; [by apply He|]. split; [|split; [|split]].
  - unfold did. cbn [actions]. rewrite triggers_app. f_equal.
    destruct (_notify (tor s) !! data_fd (evt e)); reflexivity.
  - unfold did. cbn [actions]. rewrite errors_app.
    destruct (_notify (tor s) !! data_fd (evt e)); simpl; apply app_nil_r.
  - intros l. rewrite for_events_cons, He by done. reflexivity.
  - intros script. rewrite run_loop_events by done. cbv zeta.
    change (take MAX_CAPACITY [e]) with [e].
    rewrite for_events_cons, He by done. reflexivity.
Qed.

Lemma on_event_triggers_once_or_drops_witness :
  let s := after [Register false timerA] (construct Linux env_ok) in
  triggers (actions (snd (on_event (fired 5) s))) = [timerA] ∧
  triggers (actions (snd (on_event (fired 6) s))) = [] ∧
  errors (actions (snd (on_event (fired 6) s))) = [].
Proof.
  cbv zeta.
  set (s := after [Register false timerA] (construct Linux env_ok)).
  assert (H1 : ∀ fd, Z.land (events (evt (fired fd))) EPOLLIN ≠ 0)
    by (intros fd; vm_compute; discriminate).
  assert (H5 : ¬ (data_fd (evt (fired 5)) = _evtfd (tor s) ∧ 0 < elapsed (fired 5)))
    by (intros [H _]; vm_compute in H; discriminate).
  assert (H6 : ¬ (data_fd (evt (fired 6)) = _evtfd (tor s) ∧ 0 < elapsed (fired 6)))
    by (intros [H _]; vm_compute in H; discriminate).
  pose proof (on_event_triggers_once_or_drops (fired 5) s (H1 5) eq_refl H5) as A.
  pose proof (on_event_triggers_once_or_drops (fired 6) s (H1 6) eq_refl H6) as B.
  cbv zeta in A, B.
  destruct A as (A1 & A2 & _). destruct B as (B1 & B2 & B3 & _).
  rewrite A1, B1. cbn [snd]. rewrite A2, B2, B3. repeat split.
Defined.

(** C7, as stated, fails: for the stop handle signalling a nonzero
    count the counter is read first, and only then is the stop command
    recognised. *)
Lemma stop_event_read_first :
  let s := construct Linux env_ok in
  data_fd (evt (fired 3)) = _evtfd (tor s) ∧ 0 < elapsed (fired 3) ∧
  on_event (fired 3) s =
    (true, did [ARead 3 8; ALog info "Read TOR event returns stop command"] s).
Proof. cbv zeta. repeat split. Qed.

(** C7, amended: for each ready handle that is readable the loop body
    first reads the handle's 8-byte counter; after a read of the full
    width it checks whether the handle is the stop handle with a
    nonzero count, and if so logs and the loop terminates; otherwise the
    loop goes on with the next event. *)
Theorem on_event_reads_then_checks_stop (e : Ready) (s : State) :
  Z.land (events (evt e)) EPOLLIN ≠ 0 →
  let fd := data_fd (evt e) in
  let stop := fst (on_event e s) in
  let s' := snd (on_event e s) in
  stop = (read_ret e =? sizeof_uint64) &&
         ((fd =? _evtfd (tor s)) && (0 <? elapsed e)) ∧
  ∃ rest, actions s' = actions s ++ ARead fd (read_ret e) :: rest ∧
  if stop then
    rest = [ALog info "Read TOR event returns stop command"] ∧
    ∀ l script, for_events (e :: l) s = (true, s') ∧
                fst (run_loop (WaitEvents (e :: l) :: script) s) = Stopped
  else
    ∀ l, for_events (e :: l) s = for_events l s'.
Proof.
  intros Hin. cbv zeta.
  assert (Hfe : ∀ l, for_events (e :: l) s =
            if fst (on_event e s) then (true, snd (on_event e s))
            else for_events l (snd (on_event e s))) by (intros; apply for_events_cons).
  assert (Hrl : ∀ l script, fst (on_event e s) = true →
            fst (run_loop (WaitEvents (e :: l) :: script) s) = Stopped).
  { intros l script Hs. rewrite run_loop_events by done. cbv zeta.
    change (take MAX_CAPACITY (e :: l)) with (e :: take 255 l).
    rewrite for_events_cons.
    rewrite on_event_fst_did, Hs. reflexivity. }
  revert Hfe Hrl. rewrite on_event_eq. cbv zeta.
  destruct (Z.land (events (evt e)) EPOLLIN =? 0) eqn:E1; [lia|].
  destruct (read_ret e =? sizeof_uint64) eqn:E2; cbn [negb andb].
  - destruct ((data_fd (evt e) =? _evtfd (tor s)) && (0 <? elapsed e)) eqn:E3.
    + cbn [fst snd]. intros Hfe Hrl. split; [reflexivity|].
      eexists. split; [reflexivity|].
      split; [reflexivity|]. intros l script. split; [apply Hfe|by apply Hrl].
    + destruct (_notify (tor s) !! data_fd (evt e)); cbn [fst snd];
        intros Hfe Hrl; (split; [reflexivity|]); eexists;
        (split; [reflexivity|]); apply Hfe.
  - cbn [fst snd]. intros Hfe Hrl. split; [reflexivity|].
    eexists. split; [reflexivity|]. apply Hfe.
Qed.

Lemma on_event_reads_then_checks_stop_witness :
  let s := construct Linux env_ok in
  fst (on_event (fired 3) s) = true ∧
  fst (on_event (short_read 3) s) = false.
Proof.
  cbv zeta.
  assert (H1 : Z.land (events (evt (fired 3))) EPOLLIN ≠ 0) by (vm_compute; discriminate).
  assert (H2 : Z.land (events (evt (short_read 3))) EPOLLIN ≠ 0) by (vm_compute; discriminate).
  pose proof (on_event_reads_then_checks_stop (fired 3) (construct Linux env_ok) H1) as A.
  pose proof (on_event_reads_then_checks_stop (short_read 3) (construct Linux env_ok) H2) as B.
  cbv zeta in A, B. destruct A as [A _]. destruct B as [B _].
  rewrite A, B. split; reflexivity.
Defined.



(** ** Further consequences *)

(** In a state where every key is armed, a successful register call
    binds the handle to the container of the call. *)
Lemma registerTimer_success_binds fault dot s :
  keys s ⊆ armed s →
  fst (registerTimer Linux fault dot s) = true →
  _notify (tor (snd (registerTimer Linux fault dot s))) !! _fd dot = Some dot.
Proof.
  intros Hk Hr.
  destruct (registerTimer_effect fault dot s) as (_ & _ & _ & [C|C]);
    [destruct C as (C & _); congruence|].
  destruct C as (_ & _ & _ & _ & Hn).
  assert (Hnone : _notify (tor s) !! _fd dot = None).
  { apply not_elem_of_dom. unfold keys in Hk. set_solver. }
  revert Hr. rewrite registerTimer_eq. cbv zeta.
  destruct (fst (epoll_add fault (_epfd (tor s)) (_fd dot) (kernel s)) <? 0);
    [discriminate|].
  intros _. simpl. unfold map_insert. rewrite Hnone. apply lookup_insert_eq.
Qed.

(** A failing disarm of an armed handle also separates the key set
    from the armed set. *)
Lemma unregister_fault_keys_not_armed :
  let s := after [Register false timerA; Unregister true timerA]
             (construct Linux env_ok) in
  (5 ∉ keys s) ∧ 5 ∈ armed_timers s.
Proof. cbv zeta. split; vm_compute; [discriminate|reflexivity]. Qed.

(** Calls on handles that are all different, none of them armed, are
    regular. *)
Lemma fresh_calls_regular cs s :
  NoDup (map (λ c, _fd (call_dot c)) cs) →
  (∀ c, c ∈ cs → _fd (call_dot c) ≠ _evtfd (tor s) ∧ _fd (call_dot c) ∉ armed s) →
  regular cs s.
Proof.
  revert s. induction cs as [|c cs IH]; intros s Hnd Hf; [exact I|].
  apply NoDup_cons in Hnd as [Hc Hnd].
  assert (Hcs : _fd (call_dot c) ≠ _evtfd (tor s) ∧ _fd (call_dot c) ∉ armed s)
    by (apply Hf; left).
  split.
  - destruct c as [f d|f d]; simpl in *; [exact Hcs|].
    intros Hin. by destruct Hcs as [_ []].
  - apply IH; [exact Hnd|]. intros c' Hc'.
    assert (Hne : _fd (call_dot c') ≠ _fd (call_dot c)).
    { intros E. apply Hc. rewrite <- E. apply list_elem_of_fmap. eauto. }
    destruct (Hf c') as [H1 H2]; [by right|].
    destruct c as [f d|f d]; unfold exec_call; simpl in Hne.
    + destruct (registerTimer_effect f d s) as (_ & He & _ & [C|C]);
        destruct C as (_ & Ha & _); rewrite He, Ha; set_solver.
    + destruct (unregisterTimer_effect f d s) as (_ & He & _ & _ & [C|C]);
        destruct C as (_ & Ha & _); rewrite He, Ha; set_solver.
Qed.

(** When every call of the sequence has a handle of its own, and none
    has the stop handle, the key set is the set of armed timer handles
    after each call. *)
Lemma fresh_calls_keys_armed env cs n :
  NoDup (map (λ c, _fd (call_dot c)) cs) →
  (∀ c, c ∈ cs → _fd (call_dot c) ≠ _evtfd (tor (construct Linux env))) →
  keys (after (take n cs) (construct Linux env))
  = armed_timers (after (take n cs) (construct Linux env)).
Proof.
  intros Hnd Hf. destruct (construct_keys env) as [H1 H2].
  apply keys_eq_after; [|exact H2]. apply regular_take.
  apply fresh_calls_regular; [exact Hnd|].
  intros c Hc. split; [by apply Hf|].
  specialize (Hf c Hc). unfold armed_timers, keys in *.
  intros Hin. assert (_fd (call_dot c) ∈ dom (_notify (tor (construct Linux env))))
    by (rewrite H2; set_solver).
  destruct (ctor_fails_dec env) as [F|(F1 & F2 & F3)].
  - destruct (construct_fails env F) as (_ & Hn & _). rewrite Hn in H. set_solver.
  - rewrite (construct_ok env F1 F2 F3) in H. simpl in H. set_solver.
Qed.

(** A batch of events that all reach the lookup makes one [trigger]
    call for each event whose handle is a key, in the order of the
    events, and none for the others. *)
Lemma for_events_triggers l s :
  Forall (λ e, Z.land (events (evt e)) EPOLLIN ≠ 0 ∧
               read_ret e = sizeof_uint64 ∧
               ¬ (data_fd (evt e) = _evtfd (tor s) ∧ 0 < elapsed e)) l →
  fst (for_events l s) = false ∧
  tor (snd (for_events l s)) = tor s ∧
  triggers (actions (snd (for_events l s)))
  = triggers (actions s) ++ omap (λ e, _notify (tor s) !! data_fd (evt e)) l.
Proof.
  revert s. induction l as [|e l IH]; intros s Hl.
  - simpl. by rewrite app_nil_r.
  - apply Forall_cons in Hl as [(Hin & Hrd & Hstop) Hl].
    rewrite for_events_cons, on_event_eq. cbv zeta.
    destruct (Z.land (events (evt e)) EPOLLIN =? 0) eqn:E1; [lia|].
    rewrite Hrd, Z.eqb_refl. cbn [negb].
    destruct ((data_fd (evt e) =? _evtfd (tor s)) && (0 <? elapsed e)) eqn:E2.
    { apply andb_true_iff in E2 as [E2 E3]. destruct Hstop. lia. }
    destruct (_notify (tor s) !! data_fd (evt e)) as [dot|] eqn:En; cbn [fst snd];
      match goal with |- context [for_events l (did ?a s)] =>
        destruct (IH (did a s) Hl) as (I1 & I2 & I3); rewrite I1, I2, I3 end;
      (split; [reflexivity|]); (split; [reflexivity|]);
      unfold did; cbn [actions tor]; rewrite triggers_app; simpl; rewrite En;
      rewrite <- ?app_assoc; simpl; rewrite ?app_nil_r; reflexivity.
Qed.

(** An event that is still pending for a handle unregistered in the
    meantime is dropped: no [trigger], no error line. *)
Lemma pending_event_after_unregister_dropped :
  let s := after [Register false timerA; Unregister false timerA]
             (construct Linux env_ok) in
  triggers (actions (snd (on_event (fired 5) s))) = [] ∧
  errors (actions (snd (on_event (fired 5) s))) = [].
Proof. cbv zeta. split; reflexivity. Qed.

(** * More on the service loop *)

Lemma did_nil s : did [] s = s.
Proof. destruct s. unfold did. simpl. by rewrite app_nil_r. Qed.

Lemma did_app l1 l2 s : did (l1 ++ l2) s = did l2 (did l1 s).
Proof. unfold did. simpl. by rewrite app_assoc. Qed.

Lemma on_event_run e s :
  on_event e s = (is_stop (tor s) e, did (on_event_trace (tor s) e) s).
Proof.
  rewrite on_event_eq. unfold is_stop, on_event_trace. cbv zeta.
  destruct (Z.land (events (evt e)) EPOLLIN =? 0); cbn [negb andb];
    [by rewrite did_nil|].
  destruct (read_ret e =? sizeof_uint64); cbn [negb andb]; [|reflexivity].
  destruct ((data_fd (evt e) =? _evtfd (tor s)) && (0 <? elapsed e));
    [reflexivity|].
  destruct (_notify (tor s) !! data_fd (evt e)); reflexivity.
Qed.

Lemma for_events_run l s :
  for_events l s = (existsb (is_stop (tor s)) l, did (for_events_trace (tor s) l) s).
Proof.
  revert s. induction l as [|e l IH]; intros s.
  - simpl. unfold ret. by rewrite did_nil.
  - rewrite for_events_cons, on_event_run. cbn [fst snd existsb for_events_trace].
    destruct (is_stop (tor s) e); cbn [orb].
    + by rewrite app_nil_r.
    + rewrite IH. by rewrite did_app.
Qed.

Lemma run_loop_wait_error w script s :
  evt_cnt w <= 0 →
  run_loop (w :: script) s =
  run_loop script (did [AEpollWait (evt_cnt w); ALog error "Epoll wait error: {}"] s).
Proof.
  intros H. unfold did. destruct w as [|l]; cbn [evt_cnt] in *.
  - cbn [run_loop]. unfold epoll_wait, log, act, bind, ret.
    cbn [fst snd tor kernel actions]. change (-1 <=? 0) with true. cbv iota.
    cbv beta. cbn [tor kernel actions]. by rewrite <- app_assoc.
  - destruct (take MAX_CAPACITY l) as [|e l'] eqn:E; [|cbn [length] in H; lia].
    cbn [run_loop]. unfold bind at 1. rewrite epoll_wait_events. cbv zeta.
    rewrite E. cbn [fst snd length]. change (Z.of_nat 0 <=? 0) with true.
    cbv iota. unfold log, act, bind, did. cbv beta. cbn [tor kernel actions].
    by rewrite <- app_assoc.
Qed.

Lemma run_loop_run script s :
  run_loop script s =
  (if existsb (λ w, existsb (is_stop (tor s)) (batch w)) script
   then Stopped else Waiting,
   did (run_loop_trace (tor s) script) s).
Proof.
  revert s. induction script as [|w script IH]; intros s.
  - simpl. unfold ret. by rewrite did_nil.
  - destruct (Z_le_gt_dec (evt_cnt w) 0) as [H|H].
    + rewrite (run_loop_wait_error w script s H), IH.
      cbn [existsb run_loop_trace].
      assert (Hb : batch w = []).
      { destruct w as [|l]; [reflexivity|]. cbn [evt_cnt batch] in *.
        destruct (take MAX_CAPACITY l); [reflexivity|cbn [length] in H; lia]. }
      rewrite Hb. cbn [existsb orb].
      assert (Hc : (evt_cnt w <=? 0) = true) by (apply Z.leb_le; lia).
      rewrite Hc. unfold did. cbn [tor kernel actions].
      by rewrite <- app_assoc.
    + destruct w as [|l]; [cbn [evt_cnt] in H; lia|].
      assert (Hl : l ≠ []) by (intros ->; cbn in H; lia).
      rewrite (run_loop_events l script s Hl). cbv zeta.
      rewrite for_events_run. cbn [fst snd existsb batch run_loop_trace].
      assert (Hc : (evt_cnt (WaitEvents l) <=? 0) = false) by (apply Z.leb_gt; lia).
      rewrite Hc. cbn [evt_cnt].
      change (tor (did [AEpollWait (Z.of_nat (length (take MAX_CAPACITY l)))] s))
        with (tor s).
      destruct (existsb (is_stop (tor s)) (take MAX_CAPACITY l)); cbn [orb].
      * rewrite app_nil_r. unfold did. cbn [tor kernel actions].
        by rewrite <- app_assoc.
      * rewrite IH. unfold did. cbn [tor kernel actions].
        by rewrite <- !app_assoc.
Qed.

Lemma run_Linux script s :
  run Linux script s = run_loop script (did [ALog info "TOR-THRD-0 has TID-{}"] s).
Proof. reflexivity. Qed.

Lemma is_stop_spec t e :
  is_stop t e = true ↔
  Z.land (events (evt e)) EPOLLIN ≠ 0 ∧ read_ret e = sizeof_uint64 ∧
  data_fd (evt e) = _evtfd t ∧ 0 < elapsed e.
Proof.
  unfold is_stop. rewrite !andb_true_iff, negb_true_iff.
  rewrite Z.eqb_neq, !Z.eqb_eq, Z.ltb_lt. tauto.
Qed.

(** X1: the service routine returns exactly when one of the events
    handed to it by [epoll_wait] is readable, delivers a full 8-byte
    counter, is on the stop handle and carries a nonzero count.  No
    wait error, short read or timer event ends it. *)
Theorem run_returns_iff_stop (script : list WaitResult) (s : State) :
  fst (run Linux script s) = Stopped ↔
  ∃ w e, w ∈ script ∧ e ∈ batch w ∧
    Z.land (events (evt e)) EPOLLIN ≠ 0 ∧ read_ret e = sizeof_uint64 ∧
    data_fd (evt e) = _evtfd (tor s) ∧ 0 < elapsed e.
Proof.
  rewrite run_Linux, run_loop_run. cbn [fst].
  change (tor (did [ALog info "TOR-THRD-0 has TID-{}"] s)) with (tor s).
  destruct (existsb _ script) eqn:E.
  - split; [intros _|done].
    apply existsb_exists in E as (w & Hw & E).
    apply existsb_exists in E as (e & He & E).
    exists w, e. rewrite <- is_stop_spec.
    split; [by apply list_elem_of_In|]. split; [by apply list_elem_of_In|done].
  - split; [done|]. intros (w & e & Hw & He & Hs).
    apply is_stop_spec in Hs.
    assert (existsb (λ w, existsb (is_stop (tor s)) (batch w)) script = true);
      [|congruence].
    apply existsb_exists. exists w. split; [by apply list_elem_of_In|].
    apply existsb_exists. exists e. split; [by apply list_elem_of_In|done].
Qed.

Lemma on_event_trace_service t e :
  Forall (λ a, service_action a = true) (on_event_trace t e).
Proof.
  unfold on_event_trace. cbv zeta.
  destruct (Z.land (events (evt e)) EPOLLIN =? 0); [constructor|].
  destruct (negb (read_ret e =? sizeof_uint64)); [repeat constructor|].
  destruct ((data_fd (evt e) =? _evtfd t) && (0 <? elapsed e));
    [repeat constructor|].
  destruct (_notify t !! data_fd (evt e)); repeat constructor.
Qed.

Lemma for_events_trace_service t l :
  Forall (λ a, service_action a = true) (for_events_trace t l).
Proof.
  induction l as [|e l IH]; [constructor|]. cbn [for_events_trace].
  apply Forall_app. split; [apply on_event_trace_service|].
  destruct (is_stop t e); [constructor|exact IH].
Qed.

Lemma run_loop_trace_service t script :
  Forall (λ a, service_action a = true) (run_loop_trace t script).
Proof.
  induction script as [|w script IH]; [constructor|]. cbn [run_loop_trace].
  constructor; [reflexivity|].
  destruct (evt_cnt w <=? 0); [by constructor|].
  apply Forall_app. split; [apply for_events_trace_service|].
  destruct (existsb (is_stop t) (batch w)); [constructor|exact IH].
Qed.

(** X2: the service routine leaves the members of the reactor and the
    kernel's epoll state as they are, whatever it is handed: it only
    waits, reads counters, looks up under the lock, triggers and logs;
    it never inserts into or erases from the map and never calls
    epoll_ctl or close. *)
Theorem run_keeps_members (script : list WaitResult) (s : State) :
  let s' := snd (run Linux script s) in
  tor s' = tor s ∧ kernel s' = kernel s ∧
  ∃ new, actions s' = actions s ++ new ∧
         Forall (λ a, service_action a = true) new.
Proof.
  cbv zeta. rewrite run_Linux, run_loop_run. cbn [snd].
  split; [reflexivity|]. split; [reflexivity|].
  exists (ALog info "TOR-THRD-0 has TID-{}" ::
          run_loop_trace (tor s) script).
  split.
  - unfold did. cbn [actions tor]. by rewrite <- app_assoc.
  - constructor; [reflexivity|]. apply run_loop_trace_service.
Qed.

Lemma on_event_trace_triggers t e :
  triggers (on_event_trace t e)
  `sublist_of` omap (λ e, _notify t !! data_fd (evt e)) [e].
Proof.
  unfold on_event_trace. cbv zeta.
  destruct (Z.land (events (evt e)) EPOLLIN =? 0); [apply sublist_nil_l|].
  destruct (negb (read_ret e =? sizeof_uint64)); [apply sublist_nil_l|].
  destruct ((data_fd (evt e) =? _evtfd t) && (0 <? elapsed e));
    [apply sublist_nil_l|].
  simpl. destruct (_notify t !! data_fd (evt e)); reflexivity.
Qed.

Lemma for_events_trace_triggers t l :
  triggers (for_events_trace t l)
  `sublist_of` omap (λ e, _notify t !! data_fd (evt e)) l.
Proof.
  induction l as [|e l IH]; [reflexivity|]. cbn [for_events_trace].
  rewrite triggers_app.
  change (e :: l) with ([e] ++ l). rewrite omap_app.
  apply sublist_app; [apply on_event_trace_triggers|].
  destruct (is_stop t e); [apply sublist_nil_l|exact IH].
Qed.

Lemma run_loop_trace_triggers t script :
  triggers (run_loop_trace t script)
  `sublist_of` omap (λ e, _notify t !! data_fd (evt e)) (concat (batch <$> script)).
Proof.
  induction script as [|w script IH]; [reflexivity|].
  cbn [run_loop_trace fmap list_fmap concat]. rewrite omap_app.
  change (AEpollWait (evt_cnt w) :: ?l) with ([AEpollWait (evt_cnt w)] ++ l).
  destruct (evt_cnt w <=? 0).
  - simpl. by apply sublist_inserts_l.
  - simpl. rewrite triggers_app. apply sublist_app;
      [apply for_events_trace_triggers|].
    destruct (existsb (is_stop t) (batch w)); [apply sublist_nil_l|exact IH].
Qed.

Lemma omap_length_le {A B} (f : A → option B) (l : list A) :
  (length (omap f l) ≤ length l)%nat.
Proof.
  induction l as [|a l IH]; [reflexivity|].
  change (omap f (a :: l))
    with (match f a with Some y => y :: omap f l | None => omap f l end).
  destruct (f a); cbn [length]; lia.
Qed.

(** X3: the [trigger] calls the service routine makes are, in order, a
    selection from the containers stored in the map under the handles
    of the events it was handed: at most one call per event, each for
    the container registered under that event's handle, never for
    another one. *)
Theorem run_triggers_owned (script : list WaitResult) (s : State) :
  ∃ ts, triggers (actions (snd (run Linux script s))) = triggers (actions s) ++ ts ∧
        ts `sublist_of`
           omap (λ e, _notify (tor s) !! data_fd (evt e)) (concat (batch <$> script)) ∧
        (length ts ≤ length (concat (batch <$> script)))%nat.
Proof.
  rewrite run_Linux, run_loop_run. cbn [snd].
  exists (triggers (run_loop_trace (tor s) script)).
  assert (H := run_loop_trace_triggers (tor s) script).
  split; [|split; [exact H|]].
  - unfold did. cbn [actions tor]. rewrite !triggers_app. simpl.
    by rewrite app_nil_r.
  - apply sublist_length in H. etrans; [exact H|]. apply omap_length_le.
Qed.

(** X4: a failing [epoll_wait] (a result of -1, or of no event) is
    logged and the loop waits again: a history of such results, however
    long, leaves the routine waiting, with one error line per wait and
    nothing else done. *)
Theorem wait_errors_keep_waiting (script : list WaitResult) (s : State) :
  Forall (λ w, evt_cnt w <= 0) script →
  run Linux script s =
  (Waiting,
   did (ALog info "TOR-THRD-0 has TID-{}" ::
        flat_map (λ w, [AEpollWait (evt_cnt w);
                        ALog error "Epoll wait error: {}"]) script) s).
Proof.
  intros H. rewrite run_Linux.
  rewrite (did_app [ALog info "TOR-THRD-0 has TID-{}"]
             (flat_map (λ w, [AEpollWait (evt_cnt w);
                              ALog error "Epoll wait error: {}"]) script) s
           : did (ALog info "TOR-THRD-0 has TID-{}" :: _) s = _).
  generalize (did [ALog info "TOR-THRD-0 has TID-{}"] s).
  clear s. induction H as [|w script Hw H IH]; intros s.
  - simpl. unfold ret. by rewrite did_nil.
  - rewrite (run_loop_wait_error w script s Hw), IH.
    cbn [flat_map].
    by rewrite (did_app [AEpollWait (evt_cnt w); ALog error "Epoll wait error: {}"]).
Qed.

Lemma wait_errors_keep_waiting_witness :
  fst (run Linux [WaitError; WaitEvents []; WaitError] (construct Linux env_ok))
  = Waiting.
Proof.
  assert (H : Forall (λ w, evt_cnt w <= 0) [WaitError; WaitEvents []; WaitError])
    by (repeat constructor; vm_compute; discriminate).
  rewrite (wait_errors_keep_waiting _ (construct Linux env_ok) H). reflexivity.
Defined.

(** X5: events that do not report EPOLLIN (only EPOLLERR or EPOLLHUP,
    say) are passed over: a batch of such events causes no read, no
    lookup, no trigger and no log line, and the loop goes on. *)
Theorem unreadable_events_ignored (l : list Ready) (s : State) :
  Forall (λ e, Z.land (events (evt e)) EPOLLIN = 0) l →
  for_events l s = (false, s).
Proof.
  intros H. induction H as [|e l He H IH]; [reflexivity|].
  rewrite for_events_cons, on_event_eq. cbv zeta.
  rewrite He. cbn [fst snd]. change (0 =? 0) with true. exact IH.
Qed.

Lemma unreadable_events_ignored_witness :
  let s := after [Register false timerA] (construct Linux env_ok) in
  for_events [mkReady (mk_epoll_event 8 5) 8 1; mkReady (mk_epoll_event 16 5) 8 1] s
  = (false, s).
Proof.
  cbv zeta. apply unreadable_events_ignored.
  repeat constructor.
Defined.

Lemma lock_check_app h l1 l2 :
  lock_check h (l1 ++ l2) = lock_check h l1 ≫= λ h', lock_check h' l2.
Proof.
  revert h. induction l1 as [|a l1 IH]; intros h; [reflexivity|].
  cbn [app lock_check]. destruct (lock_step h a); [apply IH|reflexivity].
Qed.

(** The trace of the loop with the reads of map entries left out. *)
Lemma on_event_trace_locks t e :
  lock_check false (List.filter (λ a, negb (is_entry a)) (on_event_trace t e))
  = Some false.
Proof.
  unfold on_event_trace. cbv zeta.
  destruct (Z.land (events (evt e)) EPOLLIN =? 0); [reflexivity|].
  destruct (negb (read_ret e =? sizeof_uint64)); [reflexivity|].
  destruct ((data_fd (evt e) =? _evtfd t) && (0 <? elapsed e)); [reflexivity|].
  destruct (_notify t !! data_fd (evt e)); reflexivity.
Qed.

Lemma for_events_trace_locks t l :
  lock_check false (List.filter (λ a, negb (is_entry a)) (for_events_trace t l))
  = Some false.
Proof.
  induction l as [|e l IH]; [reflexivity|]. cbn [for_events_trace].
  rewrite List.filter_app, lock_check_app, on_event_trace_locks. simpl.
  destruct (is_stop t e); [reflexivity|exact IH].
Qed.

Lemma run_loop_trace_locks t script :
  lock_check false (List.filter (λ a, negb (is_entry a)) (run_loop_trace t script))
  = Some false.
Proof.
  induction script as [|w script IH]; [reflexivity|].
  cbn [run_loop_trace List.filter is_entry negb lock_check lock_step].
  destruct (evt_cnt w <=? 0); [exact IH|].
  rewrite List.filter_app, lock_check_app, for_events_trace_locks. simpl.
  destruct (existsb (is_stop t) (batch w)); [reflexivity|exact IH].
Qed.

Lemma strict_iff_silent_app l1 l2 :
  strict_iff_silent l1 → strict_iff_silent l2 → strict_iff_silent (l1 ++ l2).
Proof.
  unfold strict_iff_silent. intros H1 H2.
  rewrite lock_check_app, triggers_app, H1.
  destruct (triggers l1); [exact H2|reflexivity].
Qed.

Lemma on_event_trace_strict t e : strict_iff_silent (on_event_trace t e).
Proof.
  unfold strict_iff_silent, on_event_trace. cbv zeta.
  destruct (Z.land (events (evt e)) EPOLLIN =? 0); [reflexivity|].
  destruct (negb (read_ret e =? sizeof_uint64)); [reflexivity|].
  destruct ((data_fd (evt e) =? _evtfd t) && (0 <? elapsed e)); [reflexivity|].
  destruct (_notify t !! data_fd (evt e)); reflexivity.
Qed.

Lemma for_events_trace_strict t l : strict_iff_silent (for_events_trace t l).
Proof.
  induction l as [|e l IH]; [reflexivity|]. cbn [for_events_trace].
  apply strict_iff_silent_app; [apply on_event_trace_strict|].
  destruct (is_stop t e); [reflexivity|exact IH].
Qed.

Lemma run_loop_trace_strict t script : strict_iff_silent (run_loop_trace t script).
Proof.
  induction script as [|w script IH]; [reflexivity|]. cbn [run_loop_trace].
  apply (strict_iff_silent_app [AEpollWait (evt_cnt w)]); [reflexivity|].
  destruct (evt_cnt w <=? 0).
  - apply (strict_iff_silent_app [ALog error "Epoll wait error: {}"]);
      [reflexivity|exact IH].
  - apply strict_iff_silent_app; [apply for_events_trace_strict|].
    destruct (existsb (is_stop t) (batch w)); [reflexivity|exact IH].
Qed.

(** X6: [registerTimer] and [unregisterTimer] respect the lock: they
    take [_mtx] only when it is free, touch the map only while holding
    it, make their system call without holding it and have released it
    when they are done.  The service routine takes [_mtx] only when it
    is free, looks up under it, makes every system call and every call
    into the DataObjectReactor without holding it and releases it; but
    it reads the entry it found after releasing the lock: apart from
    these reads its actions respect the lock, and with them they do so
    exactly when the routine triggers nothing. *)
Theorem lock_discipline (c : Call) (script : list WaitResult) (s : State) :
  (∃ l, actions (snd (exec_call Linux c s)) = actions s ++ l ∧
        lock_check false l = Some false) ∧
  (∃ l, actions (snd (run Linux script s)) = actions s ++ l ∧
        lock_check false (List.filter (λ a, negb (is_entry a)) l) = Some false ∧
        (lock_check false l = Some false ↔ triggers l = [])).
Proof.
  split.
  - destruct c as [f d|f d]; unfold exec_call.
    + rewrite registerTimer_eq. cbv zeta.
      destruct (fst (epoll_add f (_epfd (tor s)) (_fd d) (kernel s)) <? 0);
        eexists; (split; [reflexivity|reflexivity]).
    + rewrite unregisterTimer_eq. cbv zeta.
      destruct (fst (epoll_del f (_epfd (tor s)) (_fd d) (kernel s)) <? 0);
        eexists; (split; [reflexivity|reflexivity]).
  - rewrite run_Linux, run_loop_run. cbn [snd].
    exists (ALog info "TOR-THRD-0 has TID-{}" :: run_loop_trace (tor s) script).
    split; [|split].
    + unfold did. cbn [actions tor]. by rewrite <- app_assoc.
    + cbn [List.filter is_entry negb lock_check lock_step].
      apply run_loop_trace_locks.
    + pose proof (run_loop_trace_strict (tor s) script) as H.
      unfold strict_iff_silent in H.
      cbn [lock_check lock_step].
      change (triggers (ALog info "TOR-THRD-0 has TID-{}" :: ?l)) with (triggers l).
      rewrite H. destruct (triggers (run_loop_trace (tor s) script)); split;
        intros; done.
Qed.

(** * More on the registration protocol *)

Lemma lookup_map_insert_ne fd fd' dot (m : gmap Z DataObject) :
  fd ≠ fd' → map_insert fd dot m !! fd' = m !! fd'.
Proof.
  intros H. unfold map_insert. destruct (m !! fd); [reflexivity|].
  by apply lookup_insert_ne.
Qed.

(** X7: arming and disarming undo each other.  In a state where every
    key is armed and the epoll instance is open, registering a handle
    that is not armed and unregistering it again, the kernel refusing
    neither call, both return [true] and leave the members and the
    kernel's interest list exactly as they were. *)
Theorem register_unregister_roundtrip (dot : DataObject) (s : State) :
  keys s ⊆ armed s →
  is_Some (kernel s !! _epfd (tor s)) →
  _fd dot ∉ armed s →
  let s1 := snd (registerTimer Linux false dot s) in
  let s2 := snd (unregisterTimer Linux false dot s1) in
  fst (registerTimer Linux false dot s) = true ∧
  fst (unregisterTimer Linux false dot s1) = true ∧
  tor s2 = tor s ∧ kernel s2 = kernel s.
Proof.
  intros Hk [i Hi] Hn. cbv zeta.
  assert (Hni : _fd dot ∉ i) by (unfold armed in Hn; by rewrite Hi in Hn).
  assert (Hnone : _notify (tor s) !! _fd dot = None).
  { apply not_elem_of_dom. unfold keys in Hk. set_solver. }
  rewrite registerTimer_eq. cbv zeta. unfold epoll_add. rewrite Hi.
  destruct (decide (_fd dot ∈ i)); [contradiction|]. cbn [fst snd].
  change (0 <? 0) with false. cbv iota. cbn [fst snd].
  rewrite unregisterTimer_eq. cbv zeta. cbn [tor kernel _epfd _evtfd _thrd _notify].
  unfold epoll_del. rewrite lookup_insert_eq.
  destruct (decide (_fd dot ∈ {[_fd dot]} ∪ i)) as [_|Hx]; [|set_solver].
  cbn [fst snd]. change (0 <? 0) with false. cbv iota. cbn [fst snd tor kernel].
  split; [reflexivity|]. split; [reflexivity|]. split.
  - unfold map_insert. rewrite Hnone, delete_insert_id by done.
    by destruct (tor s).
  - rewrite insert_insert_eq.
    replace (({[_fd dot]} ∪ i) ∖ {[_fd dot]}) with i by set_solver.
    by apply insert_id.
Qed.

Lemma register_unregister_roundtrip_witness :
  let s := construct Linux env_ok in
  tor (snd (unregisterTimer Linux false timerA (snd (registerTimer Linux false timerA s))))
  = tor s.
Proof.
  cbv zeta.
  assert (Hk : keys (construct Linux env_ok) ⊆ armed (construct Linux env_ok))
    by apply (construct_keys env_ok).
  assert (Hs : is_Some (kernel (construct Linux env_ok) !! _epfd (tor (construct Linux env_ok))))
    by (eexists; vm_compute; reflexivity).
  assert (Hn : _fd timerA ∉ armed (construct Linux env_ok))
    by (vm_compute; discriminate).
  apply (register_unregister_roundtrip timerA _ Hk Hs Hn).
Defined.

(** X8: a call touches its own handle only.  For every other handle,
    the container stored in the map and whether the handle is armed are
    the same after a register or unregister call as before, whatever
    the call's outcome. *)
Theorem exec_call_frame (c : Call) (s : State) (fd' : Z) :
  fd' ≠ _fd (call_dot c) →
  let s' := snd (exec_call Linux c s) in
  _notify (tor s') !! fd' = _notify (tor s) !! fd' ∧
  (fd' ∈ armed s' ↔ fd' ∈ armed s).
Proof.
  intros Hne. cbv zeta. destruct c as [f d|f d]; unfold exec_call; cbn [call_dot] in Hne.
  - split.
    + rewrite registerTimer_eq. cbv zeta.
      destruct (fst (epoll_add f (_epfd (tor s)) (_fd d) (kernel s)) <? 0);
        cbn [snd tor _notify];
        rewrite ?lookup_delete_ne by done; by apply lookup_map_insert_ne.
    + destruct (registerTimer_effect f d s) as (_ & _ & _ & [C|C]);
        destruct C as (_ & Ha & _); rewrite Ha; set_solver.
  - split.
    + rewrite unregisterTimer_eq. cbv zeta.
      destruct (fst (epoll_del f (_epfd (tor s)) (_fd d) (kernel s)) <? 0);
        cbn [snd tor _notify]; by apply lookup_delete_ne.
    + destruct (unregisterTimer_effect f d s) as (_ & _ & _ & _ & [C|C]);
        destruct C as (_ & Ha & _); rewrite Ha; set_solver.
Qed.

Lemma exec_call_frame_witness :
  let s := after [Register false timerA] (construct Linux env_ok) in
  _notify (tor (snd (exec_call Linux (Unregister false timerB) s))) !! 5
  = Some timerA.
Proof.
  cbv zeta.
  assert (H : 5 ≠ _fd (call_dot (Unregister false timerB)))
    by (vm_compute; discriminate).
  rewrite (proj1 (exec_call_frame (Unregister false timerB) _ 5 H)).
  reflexivity.
Defined.

(** X9: a registered timer fires for its own container.  After a
    successful register call in a state where every key is armed, an
    event on the container's handle that is readable, delivers the full
    counter and is not the stop command makes exactly one [trigger]
    call, for that container. *)
Theorem registered_timer_fires (fault : bool) (dot : DataObject) (e : Ready) (s : State) :
  keys s ⊆ armed s →
  fst (registerTimer Linux fault dot s) = true →
  data_fd (evt e) = _fd dot →
  Z.land (events (evt e)) EPOLLIN ≠ 0 →
  read_ret e = sizeof_uint64 →
  ¬ (_fd dot = _evtfd (tor s) ∧ 0 < elapsed e) →
  let s1 := snd (registerTimer Linux fault dot s) in
  fst (on_event e s1) = false ∧
  triggers (actions (snd (on_event e s1))) = triggers (actions s1) ++ [dot].
Proof.
  intros Hk Hr Hfd Hin Hrd Hstop. cbv zeta.
  pose proof (registerTimer_success_binds fault dot s Hk Hr) as Hb.
  destruct (registerTimer_effect fault dot s) as (_ & He & _).
  rewrite on_event_run. cbn [fst snd].
  set (s1 := snd (registerTimer Linux fault dot s)) in *.
  split.
  - destruct (is_stop (tor s1) e) eqn:E; [|reflexivity].
    apply is_stop_spec in E as (_ & _ & E1 & E2).
    destruct Hstop. rewrite <- He, <- E1, <- Hfd. auto.
  - unfold did. cbn [actions]. rewrite triggers_app. f_equal.
    unfold on_event_trace. cbv zeta.
    destruct (Z.land (events (evt e)) EPOLLIN =? 0) eqn:E1; [lia|].
    rewrite Hrd, Z.eqb_refl. cbn [negb].
    destruct ((data_fd (evt e) =? _evtfd (tor s1)) && (0 <? elapsed e)) eqn:E2.
    { apply andb_true_iff in E2 as [E2 E3]. destruct Hstop.
      rewrite <- He, <- Hfd. lia. }
    rewrite Hfd, Hb. reflexivity.
Qed.

Lemma registered_timer_fires_witness :
  let s1 := snd (registerTimer Linux false timerA (construct Linux env_ok)) in
  triggers (actions (snd (on_event (fired 5) s1))) = [timerA].
Proof.
  cbv zeta.
  assert (Hk : keys (construct Linux env_ok) ⊆ armed (construct Linux env_ok))
    by apply (construct_keys env_ok).
  assert (Hs : ¬ (_fd timerA = _evtfd (tor (construct Linux env_ok)) ∧ 0 < elapsed (fired 5)))
    by (intros [H _]; vm_compute in H; discriminate).
  assert (Hin : Z.land (events (evt (fired 5))) EPOLLIN ≠ 0)
    by (vm_compute; discriminate).
  destruct (registered_timer_fires false timerA (fired 5) (construct Linux env_ok)
              Hk eq_refl eq_refl Hin eq_refl Hs) as [_ H].
  rewrite H. reflexivity.
Defined.

(** X10: after [unregisterTimer], whatever its outcome, no event on
    the container's handle makes a [trigger] call: the event is read
    and dropped (or, on the stop handle, ends the loop). *)
Theorem unregistered_timer_silent (fault : bool) (dot : DataObject) (e : Ready) (s : State) :
  data_fd (evt e) = _fd dot →
  let s1 := snd (unregisterTimer Linux fault dot s) in
  triggers (actions (snd (on_event e s1))) = triggers (actions s1).
Proof.
  intros Hfd. cbv zeta.
  set (s1 := snd (unregisterTimer Linux fault dot s)).
  assert (Hnone : _notify (tor s1) !! data_fd (evt e) = None).
  { rewrite Hfd. unfold s1. rewrite unregisterTimer_eq. cbv zeta.
    destruct (fst (epoll_del fault (_epfd (tor s)) (_fd dot) (kernel s)) <? 0);
      cbn [snd tor _notify]; apply lookup_delete_eq. }
  rewrite on_event_run. cbn [snd]. unfold did. cbn [actions].
  rewrite triggers_app. unfold on_event_trace. cbv zeta. rewrite Hnone.
  destruct (Z.land (events (evt e)) EPOLLIN =? 0); [by rewrite app_nil_r|].
  destruct (negb (read_ret e =? sizeof_uint64)); [by rewrite app_nil_r|].
  destruct ((data_fd (evt e) =? _evtfd (tor s1)) && (0 <? elapsed e));
    by rewrite app_nil_r.
Qed.

Lemma unregistered_timer_silent_witness :
  let s := after [Register false timerA] (construct Linux env_ok) in
  let s1 := snd (unregisterTimer Linux true timerA s) in
  triggers (actions (snd (on_event (fired 5) s1))) = [].
Proof.
  cbv zeta.
  rewrite (unregistered_timer_silent true timerA (fired 5) _ eq_refl).
  reflexivity.
Defined.

(** X11: unregistering a handle that is not armed (never registered,
    or already unregistered) fails cleanly: in a state where every key
    is armed the call returns [false], logs one error and leaves the
    members and the kernel as they were. *)
Theorem unregister_unarmed (fault : bool) (dot : DataObject) (s : State) :
  keys s ⊆ armed s →
  _fd dot ∉ armed s →
  unregisterTimer Linux fault dot s =
  (false,
   did [AEpollCtlDel (_epfd (tor s)) (_fd dot) (-1);
        ALog error "Epoll control error at TimerObjectReactor.unregisterTimer: {}";
        ALock; AErase (_fd dot); AUnlock] s).
Proof.
  intros Hk Hn.
  assert (Hnone : _notify (tor s) !! _fd dot = None).
  { apply not_elem_of_dom. unfold keys in Hk. set_solver. }
  assert (Hd : epoll_del fault (_epfd (tor s)) (_fd dot) (kernel s) = (-1, kernel s)).
  { unfold epoll_del, armed in *. destruct (kernel s !! _epfd (tor s)) as [i|];
      [|reflexivity]. destruct fault; [reflexivity|].
    destruct (decide (_fd dot ∈ i)); [contradiction|reflexivity]. }
  rewrite unregisterTimer_eq. cbv zeta. rewrite Hd. cbn [fst snd].
  change (-1 <? 0) with true. cbv iota.
  rewrite (delete_id _ _ Hnone). unfold did. by destruct (tor s).
Qed.

Lemma unregister_unarmed_witness :
  fst (unregisterTimer Linux false timerA (construct Linux env_ok)) = false.
Proof.
  assert (Hk : keys (construct Linux env_ok) ⊆ armed (construct Linux env_ok))
    by apply (construct_keys env_ok).
  assert (Hn : _fd timerA ∉ armed (construct Linux env_ok))
    by (vm_compute; discriminate).
  rewrite (unregister_unarmed false timerA _ Hk Hn). reflexivity.
Defined.

(** * More on construction and destruction *)

Lemma after_members cs s :
  _epfd (tor (after cs s)) = _epfd (tor s) ∧
  _evtfd (tor (after cs s)) = _evtfd (tor s) ∧
  _thrd (tor (after cs s)) = _thrd (tor s).
Proof.
  revert s. induction cs as [|c cs IH]; intros s; [done|].
  rewrite after_cons. destruct (IH (snd (exec_call Linux c s))) as (-> & -> & ->).
  destruct c as [f d|f d]; unfold exec_call.
  - by destruct (registerTimer_effect f d s) as (-> & -> & -> & _).
  - by destruct (unregisterTimer_effect f d s) as (-> & -> & -> & _).
Qed.

Lemma exec_call_other c s fd' :
  fd' ≠ _fd (call_dot c) →
  (fd' ∈ keys (snd (exec_call Linux c s)) ↔ fd' ∈ keys s) ∧
  (fd' ∈ armed (snd (exec_call Linux c s)) ↔ fd' ∈ armed s).
Proof.
  intros Hne. destruct c as [f d|f d]; unfold exec_call; cbn [call_dot] in Hne.
  - destruct (registerTimer_effect f d s) as (_ & _ & _ & [C|C]);
      destruct C as (_ & Ha & Hk & _); rewrite Ha, Hk; set_solver.
  - destruct (unregisterTimer_effect f d s) as (_ & _ & _ & Hk & [C|C]);
      destruct C as (_ & Ha & _); rewrite Ha, Hk; set_solver.
Qed.

(** X12: the stop handle stays armed.  After a construction that
    succeeded, and after any register and unregister calls for
    containers that do not carry the stop handle's descriptor, the stop
    handle is in the interest list of the reactor's epoll instance and
    is not a key of the map: the destructor's write can always reach
    the service loop, and is never taken for a timer. *)
Theorem stop_handle_stays_armed (env : CtorEnv) (cs : list Call) :
  0 <= r_eventfd env → 0 <= r_epoll_create1 env → ctl_fault env = false →
  Forall (λ c, _fd (call_dot c) ≠ r_eventfd env) cs →
  let s := after cs (construct Linux env) in
  _evtfd (tor s) = r_eventfd env ∧
  _evtfd (tor s) ∈ armed s ∧
  (_evtfd (tor s) ∉ keys s).
Proof.
  intros H1 H2 H3 Hcs. cbv zeta.
  destruct (after_members cs (construct Linux env)) as (_ & He & _).
  assert (E0 : _evtfd (tor (construct Linux env)) = r_eventfd env)
    by (rewrite (construct_ok env H1 H2 H3); reflexivity).
  rewrite He, E0. split; [reflexivity|].
  assert (I0 : r_eventfd env ∈ armed (construct Linux env) ∧
               r_eventfd env ∉ keys (construct Linux env)).
  { rewrite (construct_ok env H1 H2 H3). unfold armed, keys. cbn [tor kernel _epfd _notify].
    rewrite lookup_insert_eq. simpl. set_solver. }
  revert I0. generalize (construct Linux env). clear He E0.
  induction Hcs as [|c cs Hc Hcs IH]; intros s I0; [exact I0|].
  rewrite after_cons. apply IH.
  destruct (exec_call_other c s (r_eventfd env)) as [Hk Ha]; [congruence|].
  rewrite Hk, Ha. exact I0.
Qed.

Lemma stop_handle_stays_armed_witness :
  let s := after [Register false timerA; Unregister false timerA; Register true timerB]
             (construct Linux env_ok) in
  _evtfd (tor s) ∈ armed s.
Proof.
  cbv zeta.
  assert (H1 : 0 <= r_eventfd env_ok) by (vm_compute; discriminate).
  assert (H2 : 0 <= r_epoll_create1 env_ok) by (vm_compute; discriminate).
  assert (Hcs : Forall (λ c, _fd (call_dot c) ≠ r_eventfd env_ok)
            [Register false timerA; Unregister false timerA; Register true timerB])
    by (repeat constructor; vm_compute; discriminate).
  apply (stop_handle_stays_armed env_ok _ H1 H2 eq_refl Hcs).
Defined.

(** X13: a failed construction leaks nothing.  When [eventfd],
    [epoll_create1] or the arming of the stop handle fails, the
    constructor logs one error, starts no thread, closes every
    descriptor it had opened and leaves no epoll instance behind. *)
Theorem ctor_failure_releases (env : CtorEnv) :
  ctor_fails env →
  let s := construct Linux env in
  kernel s = ∅ ∧
  _thrd (tor s) = false ∧
  (ASpawn ∉ actions s) ∧
  opened (actions s) ⊆ closed (actions s) ∧
  length (errors (actions s)) = 1%nat.
Proof.
  intros H. unfold construct, TimerObjectReactor_ctor, boot.
  unfold_m. simpl.
  destruct (r_eventfd env <? 0) eqn:E1; simpl.
  { unfold opened, closed. simpl. rewrite E1.
    repeat split; set_solver. }
  destruct (r_epoll_create1 env <? 0) eqn:E2; simpl.
  { unfold opened, closed. simpl. rewrite E1, E2.
    rewrite delete_empty, fmap_empty. repeat split; set_solver. }
  destruct H as [H|[H|H]]; [lia|lia|].
  unfold epoll_add. rewrite lookup_insert_eq, H. simpl.
  unfold opened, closed. simpl. rewrite E1, E2.
  rewrite (delete_insert_id (∅ : gmap Z (gset Z))) by apply lookup_empty.
  rewrite fmap_empty, delete_empty, fmap_empty.
  repeat split; set_solver.
Qed.

Lemma ctor_failure_releases_witness :
  closed (actions (construct Linux env_no_stop)) = [4; 3] ∧
  kernel (construct Linux env_no_stop) = ∅.
Proof.
  assert (H : ctor_fails env_no_stop) by (right; right; reflexivity).
  destruct (ctor_failure_releases env_no_stop H) as (Hk & _).
  split; [reflexivity|exact Hk].
Defined.

Lemma run_loop_stop_wakeup s :
  run_loop [WaitEvents [mkReady (mk_epoll_event EPOLLIN (_evtfd (tor s)))
                                sizeof_uint64 1]] s =
  (Stopped,
   did [AEpollWait 1; ARead (_evtfd (tor s)) sizeof_uint64;
        ALog info "Read TOR event returns stop command"] s).
Proof.
  rewrite run_loop_run.
  cbn [existsb batch take MAX_CAPACITY run_loop_trace evt_cnt length
       for_events_trace orb].
  unfold is_stop, on_event_trace.
  cbn [evt events data_fd read_ret elapsed].
  rewrite !Z.eqb_refl. reflexivity.
Qed.

(** X14: shutdown.  On a reactor whose construction succeeded, after
    any register and unregister calls, the destructor returns exactly
    when its write of the stop value succeeds and the stop handle is
    still in the interest list.  It then writes to the stop handle,
    joins the service thread, which wakes up, reads the stop handle and
    returns, and only then closes the stop handle and the epoll
    descriptor, in this order; the thread is left not joinable and the
    epoll instance closed.  Otherwise the service thread never sees the
    stop command and the destructor stays blocked in [join], with
    nothing closed. *)
Theorem dtor_running_shuts_down (env : CtorEnv) (cs : list Call) (wr : Z) :
  0 <= r_eventfd env → 0 <= r_epoll_create1 env → ctl_fault env = false →
  let s := after cs (construct Linux env) in
  let d := TimerObjectReactor_dtor Linux wr s in
  if (wr =? sizeof_uint64) && bool_decide (r_eventfd env ∈ armed s) then
    fst d = Returned ∧
    actions (snd d) = actions s ++
      [ALog info "Delete TOR"; AWrite (r_eventfd env) sizeof_uint64; AJoin;
       AEpollWait 1; ARead (r_eventfd env) sizeof_uint64;
       ALog info "Read TOR event returns stop command";
       AClose (r_eventfd env); AClose (r_epoll_create1 env)] ∧
    _thrd (tor (snd d)) = false ∧
    _notify (tor (snd d)) = _notify (tor s) ∧
    inert (snd d)
  else
    fst d = Blocked ∧
    tor (snd d) = tor s ∧
    kernel (snd d) = kernel s.
Proof.
  intros H1 H2 H3. cbv zeta.
  destruct (after_members cs (construct Linux env)) as (Hp & He & Ht).
  assert (C : _epfd (tor (construct Linux env)) = r_epoll_create1 env ∧
              _evtfd (tor (construct Linux env)) = r_eventfd env ∧
              _thrd (tor (construct Linux env)) = true)
    by (rewrite (construct_ok env H1 H2 H3); done).
  destruct C as (C1 & C2 & C3). rewrite C1 in Hp. rewrite C2 in He. rewrite C3 in Ht.
  set (s := after cs (construct Linux env)) in *.
  unfold TimerObjectReactor_dtor.
  unfold log, act, get_tor, stop_wakeup, thrd_join, bind, ret.
  cbn [fst snd tor kernel actions]. rewrite He.
  destruct (wr =? sizeof_uint64) eqn:Ew; cbn [negb andb].
  - apply Z.eqb_eq in Ew. rewrite Ew.
    unfold get_tor, act, bind, ret. cbn [fst snd tor kernel actions].
    rewrite Ht, He.
    change (armed {| tor := tor s; kernel := kernel s; actions := ?a |})
      with (armed s).
    destruct (bool_decide (r_eventfd env ∈ armed s)) eqn:Ea.
    + match goal with |- context [run_loop _ ?x] =>
        pose proof (run_loop_stop_wakeup x) as R end.
      cbn [tor] in R. rewrite He in R. rewrite R. clear R.
      unfold set_thrd, close, get_tor, set_tor, get_kernel, set_kernel, act, bind, ret, did.
      cbn [fst snd tor kernel actions _epfd _evtfd _thrd _notify].
      rewrite Hp, He.
      destruct (0 <=? r_eventfd env) eqn:E1; [|lia].
      destruct (0 <=? r_epoll_create1 env) eqn:E2; [|lia].
      unfold close, get_kernel, set_kernel, act, bind, ret, inert.
      cbn [fst snd tor kernel actions _epfd _evtfd _thrd _notify].
      split; [reflexivity|]. split; [by rewrite <- !app_assoc|].
      split; [reflexivity|]. split; [reflexivity|].
      rewrite lookup_fmap. apply fmap_None. apply lookup_delete_None. by left.
    + cbn [run_loop]. unfold ret. cbn [fst snd tor kernel]. done.
  - unfold log, get_tor, act, bind, ret. cbn [fst snd tor kernel actions].
    rewrite Ht. cbn [run_loop]. unfold ret. cbn [fst snd tor kernel]. done.
Qed.

Lemma dtor_running_shuts_down_witness :
  fst (TimerObjectReactor_dtor Linux sizeof_uint64
         (after [Register false timerA] (construct Linux env_ok))) = Returned ∧
  fst (TimerObjectReactor_dtor Linux sizeof_uint64
         (after [Unregister false (mkDataObject 4 3)] (construct Linux env_ok)))
  = Blocked ∧
  fst (TimerObjectReactor_dtor Linux (-1)
         (after [Register false timerA] (construct Linux env_ok))) = Blocked.
Proof.
  assert (H1 : 0 <= r_eventfd env_ok) by (vm_compute; discriminate).
  assert (H2 : 0 <= r_epoll_create1 env_ok) by (vm_compute; discriminate).
  pose proof (dtor_running_shuts_down env_ok [Register false timerA]
                sizeof_uint64 H1 H2 eq_refl) as A.
  pose proof (dtor_running_shuts_down env_ok [Unregister false (mkDataObject 4 3)]
                sizeof_uint64 H1 H2 eq_refl) as B.
  pose proof (dtor_running_shuts_down env_ok [Register false timerA]
                (-1) H1 H2 eq_refl) as C.
  cbv zeta in A, B, C.
  split; [exact (proj1 A)|]. split; [exact (proj1 B)|exact (proj1 C)].
Defined.

(** * The scheduler observer *)

Lemma string_length_append (a b : string) :
  String.length (String.append a b) = (String.length a + String.length b)%nat.
Proof. induction a as [|c a IH]; simpl; [reflexivity|]. by rewrite IH. Qed.

Lemma digits_aux_length (k : nat) :
  ∀ fuel n acc, (k < fuel)%nat →
    (10 ^ Z.of_nat k <= n < 10 ^ Z.of_nat (S k)) ∨ (k = 0%nat ∧ 0 <= n < 10) →
    String.length (digits_aux fuel n acc) = (S k + String.length acc)%nat.
Proof.
  induction k as [|k IH]; intros fuel n acc Hf Hn.
  - assert (H : 0 <= n < 10).
    { destruct Hn as [Hn|[_ Hn]]; [|exact Hn].
      change (10 ^ Z.of_nat 0) with 1 in Hn. change (10 ^ Z.of_nat 1) with 10 in Hn. lia. }
    destruct fuel as [|f]; [lia|]. cbn [digits_aux].
    rewrite (Z.div_small n 10 H). reflexivity.
  - destruct Hn as [Hn|[Hk _]]; [|discriminate].
    destruct fuel as [|f]; [lia|]. cbn [digits_aux].
    rewrite !Nat2Z.inj_succ, !Z.pow_succ_r in Hn by lia.
    assert (Hq : 10 ^ Z.of_nat k <= n / 10 < 10 ^ Z.of_nat (S k)).
    { rewrite Nat2Z.inj_succ, Z.pow_succ_r by lia. split.
      - apply Z.div_le_lower_bound; lia.
      - apply Z.div_lt_upper_bound; lia. }
    assert (Hpos : 0 < 10 ^ Z.of_nat k) by (apply Z.pow_pos_nonneg; lia).
    destruct (n / 10 =? 0) eqn:E; [apply Z.eqb_eq in E; lia|].
    rewrite (IH f (n / 10) _ ltac:(lia) (or_introl Hq)). simpl. lia.
Qed.

Lemma thread_name_length (k : nat) (tid : Z) :
  (k < 10)%nat →
  (10 ^ Z.of_nat k <= tid < 10 ^ Z.of_nat (S k)) ∨ (k = 0%nat ∧ 0 <= tid < 10) →
  String.length (thread_name tid) = (9 + k)%nat.
Proof.
  intros Hk H. unfold thread_name, to_string.
  assert (H0 : 0 <= tid).
  { destruct H as [[H _]|[_ H]]; [|lia].
    assert (0 < 10 ^ Z.of_nat k) by (apply Z.pow_pos_nonneg; lia). lia. }
  destruct (tid <? 0) eqn:E; [apply Z.ltb_lt in E; lia|].
  rewrite string_length_append, (digits_aux_length k 10 tid "" Hk H).
  simpl. lia.
Qed.

(** X15: the name [Observer::on_scheduler_entry] builds for a worker
    thread, "TBB-TID-" followed by the thread id in decimal, fits the
    16-byte limit of [pthread_setname_np] exactly when the thread id is
    below 10,000,000: for such ids the naming succeeds, and for larger
    ones it fails with ERANGE and "Could not set tbb names" is
    printed; the priority is applied in both cases. *)
Theorem on_scheduler_entry_name_fits (_rt_prio tid r_sched : Z) :
  0 <= tid < 2 ^ 31 →
  ((String.length (thread_name tid) ≤ 15)%nat ↔ tid < 10 ^ 7) ∧
  (Cout "Could not set tbb names" ∈ on_scheduler_entry _rt_prio tid r_sched
     ↔ 10 ^ 7 <= tid) ∧
  SetSched _rt_prio r_sched ∈ on_scheduler_entry _rt_prio tid r_sched.
Proof.
  intros Ht.
  assert (Hlen : ∃ k, (k < 10)%nat ∧ String.length (thread_name tid) = (9 + k)%nat ∧
                      ((k ≤ 6)%nat ↔ tid < 10 ^ 7)).
  { change (2 ^ 31) with 2147483648 in Ht. change (10 ^ 7) with 10000000.
    assert (C : tid < 10 ∨ 10 ^ Z.of_nat 1 <= tid < 10 ^ Z.of_nat 2
              ∨ 10 ^ Z.of_nat 2 <= tid < 10 ^ Z.of_nat 3
              ∨ 10 ^ Z.of_nat 3 <= tid < 10 ^ Z.of_nat 4
              ∨ 10 ^ Z.of_nat 4 <= tid < 10 ^ Z.of_nat 5
              ∨ 10 ^ Z.of_nat 5 <= tid < 10 ^ Z.of_nat 6
              ∨ 10 ^ Z.of_nat 6 <= tid < 10 ^ Z.of_nat 7
              ∨ 10 ^ Z.of_nat 7 <= tid < 10 ^ Z.of_nat 8
              ∨ 10 ^ Z.of_nat 8 <= tid < 10 ^ Z.of_nat 9
              ∨ 10 ^ Z.of_nat 9 <= tid < 10 ^ Z.of_nat 10).
    { cbn. lia. }
    destruct C as [C|[C|[C|[C|[C|[C|[C|[C|[C|C]]]]]]]]].
    - exists 0%nat. split; [lia|]. split; [apply thread_name_length; [lia|right; lia]|lia].
    - exists 1%nat. split; [lia|]. split; [apply thread_name_length; [lia|by left]|].
      cbn in C. lia.
    - exists 2%nat. split; [lia|]. split; [apply thread_name_length; [lia|by left]|].
      cbn in C. lia.
    - exists 3%nat. split; [lia|]. split; [apply thread_name_length; [lia|by left]|].
      cbn in C. lia.
    - exists 4%nat. split; [lia|]. split; [apply thread_name_length; [lia|by left]|].
      cbn in C. lia.
    - exists 5%nat. split; [lia|]. split; [apply thread_name_length; [lia|by left]|].
      cbn in C. lia.
    - exists 6%nat. split; [lia|]. split; [apply thread_name_length; [lia|by left]|].
      cbn in C. lia.
    - exists 7%nat. split; [lia|]. split; [apply thread_name_length; [lia|by left]|].
      cbn in C. lia.
    - exists 8%nat. split; [lia|]. split; [apply thread_name_length; [lia|by left]|].
      cbn in C. lia.
    - exists 9%nat. split; [lia|]. split; [apply thread_name_length; [lia|by left]|].
      cbn in C. lia. }
  destruct Hlen as (k & Hk & Hl & Hiff).
  split; [rewrite Hl, <- Hiff; lia|].
  unfold on_scheduler_entry. cbv zeta. unfold pthread_setname_np. rewrite Hl.
  destruct (15 <? 9 + k)%nat eqn:E.
  - apply Nat.ltb_lt in E. cbn [negb Z.eqb ERANGE app].
    split; [|set_solver]. split; [lia|]. intros _. set_solver.
  - apply Nat.ltb_ge in E. cbn [negb Z.eqb app].
    split; [|destruct (negb (r_sched =? 0)); set_solver].
    split; [|lia]. intros Hin. exfalso.
    destruct (negb (r_sched =? 0)); set_solver.
Qed.

Lemma on_scheduler_entry_name_fits_witness :
  String.length (thread_name 4194304) = 15%nat ∧
  Cout "Could not set tbb names" ∉ on_scheduler_entry Observer.RT_PRIO 4194304 0.
Proof.
  assert (H : 0 <= 4194304 < 2 ^ 31) by (cbn; lia).
  destruct (on_scheduler_entry_name_fits Observer.RT_PRIO 4194304 0 H) as (_ & Hc & _).
  split; [reflexivity|]. intros Hin. apply Hc in Hin. cbn in Hin. lia.
Defined.
